(** * Configuration loading, validation and trading core of the copy-trading bot

    A shallow embedding of [src/utils/validation.util.ts], [src/config/env.ts]
    and [src/infrastructure/clob-client.factory.ts], and a model of the Signal
    Merger and of the Decision Engine, followed by their properties.

    JavaScript strings are modelled as [string]; a character stands for the
    UTF-16 code unit of the same number, so the model covers the strings whose
    code units are below 256.  JavaScript numbers are IEEE 754 binary64
    values, modelled by the primitive [float]. *)

From Stdlib Require Import ZArith NArith Ascii String List Bool Lia.
From Stdlib Require Import Floats DecimalString.
From stdpp Require Import base option list strings gmap.

Local Open Scope string_scope.
Set Warnings "-inexact-float,-register-all".

(** ** JavaScript string primitives *)

Module JsString.

(** WhiteSpace and LineTerminator code units below 256: TAB, LF, VT, FF, CR,
    SP and NBSP. *)
Definition isWhiteSpace (c : ascii) : bool :=
  let n := N_of_ascii c in
  ((9 <=? n)%N && (n <=? 13)%N) || (n =? 32)%N || (n =? 160)%N.

Fixpoint trimStart (s : string) : string :=
  match s with
  | String c s' => if isWhiteSpace c then trimStart s' else s
  | EmptyString => EmptyString
  end.

Fixpoint trimEnd (s : string) : string :=
  match s with
  | String c s' =>
      match trimEnd s' with
      | EmptyString => if isWhiteSpace c then EmptyString else String c EmptyString
      | t => String c t
      end
  | EmptyString => EmptyString
  end.

(** [s.trim()] *)
Definition trim (s : string) : string := trimEnd (trimStart s).

(** [s.startsWith(p)] *)
Fixpoint startsWith (p s : string) : bool :=
  match p with
  | EmptyString => true
  | String a p' =>
      match s with
      | String b s' => Ascii.eqb a b && startsWith p' s'
      | EmptyString => false
      end
  end.

(** [s.slice(n)] for a non-negative [n] *)
Fixpoint slice (n : nat) (s : string) : string :=
  match n, s with
  | S n', String _ s' => slice n' s'
  | _, _ => s
  end.

(** [s.substring(0, n)] *)
Definition substring0 (n : nat) (s : string) : string := String.substring 0 n s.

Definition lowerChar (c : ascii) : ascii :=
  let n := N_of_ascii c in
  if ((65 <=? n)%N && (n <=? 90)%N)
     || ((192 <=? n)%N && (n <=? 222)%N && negb (n =? 215)%N)
  then ascii_of_N (n + 32) else c.

(** [s.toLowerCase()] *)
Fixpoint toLowerCase (s : string) : string :=
  match s with
  | String c s' => String (lowerChar c) (toLowerCase s')
  | EmptyString => EmptyString
  end.

(** Template interpolation of a non-negative integer, [`${n}`]. *)
Definition ofNat (n : nat) : string := NilEmpty.string_of_uint (Nat.to_uint n).

(** The line feed of the ['\n'] escapes. *)
Definition nl : string := String (ascii_of_N 10) EmptyString.

(** [s.split(',')]: the pieces between the commas, empty pieces included. *)
Fixpoint splitComma (s : string) : list string :=
  match s with
  | EmptyString => [EmptyString]
  | String c s' =>
      if Ascii.eqb c "," then EmptyString :: splitComma s'
      else match splitComma s' with
           | t :: ts => String c t :: ts
           | [] => [String c EmptyString]
           end
  end.

(** [l.join(sep)] *)
Fixpoint join (sep : string) (l : list string) : string :=
  match l with
  | [] => EmptyString
  | [x] => x
  | x :: xs => x +:+ sep +:+ join sep xs
  end.

End JsString.
Import JsString.

(** ** JavaScript numbers: [Number(string)] *)

Module JsNumber.

(** The value of [c] as a digit in [base], letters counting from ten. *)
Definition digitValue (base : N) (c : ascii) : option Z :=
  let n := N_of_ascii c in
  let d := if ((48 <=? n) && (n <=? 57))%N then Some (n - 48)%N
           else if ((97 <=? n) && (n <=? 122))%N then Some (n - 87)%N
           else if ((65 <=? n) && (n <=? 90))%N then Some (n - 55)%N
           else None in
  match d with
  | Some v => if (v <? base)%N then Some (Z.of_N v) else None
  | None => None
  end.

(** The longest run of digits at the head of [s]: its value on top of [acc],
    the number of digits read on top of [count], and the rest of [s]. *)
Fixpoint digits (base : N) (s : string) (acc : Z) (count : nat) : Z * nat * string :=
  match s with
  | String c s' =>
      match digitValue base c with
      | Some d => digits base s' (acc * Z.of_N base + d)%Z (S count)
      | None => (acc, count, s)
      end
  | EmptyString => (acc, count, s)
  end.

(** The binary64 value nearest to [n / d] (ties to even), for [0 <= n] and
    [0 < d]; a zero takes the sign of the literal. *)
Definition roundRatio (neg : bool) (n d : Z) : float :=
  match n with
  | Z0 => if neg then neg_zero else zero
  | _ =>
      let '(q, e, l) := SFdiv_core_binary prec emax n 0 d 0 in
      SF2Prim (binary_round_aux prec emax neg q e l)
  end.

(** The mathematical value [m * 10 ^ e10], rounded. *)
Definition decimalValue (neg : bool) (m e10 : Z) : float :=
  if (0 <=? e10)%Z then roundRatio neg (m * 10 ^ e10)%Z 1
  else roundRatio neg m (10 ^ (- e10))%Z.

(** ExponentPart, optional, up to the end of the literal. *)
Definition exponentPart (s : string) : option Z :=
  match s with
  | EmptyString => Some 0%Z
  | String c s' =>
      if Ascii.eqb c "e" || Ascii.eqb c "E" then
        let '(neg, ds) :=
          match s' with
          | String "+" t => (false, t)
          | String "-" t => (true, t)
          | _ => (false, s')
          end in
        match digits 10 ds 0 0 with
        | (v, S _, EmptyString) => Some (if neg then (- v)%Z else v)
        | _ => None
        end
      else None
  end.

(** StrUnsignedDecimalLiteral *)
Definition strUnsignedDecimalLiteral (neg : bool) (s : string) : float :=
  if String.eqb s "Infinity" then (if neg then neg_infinity else infinity)
  else
    let '(ip, ni, r1) := digits 10 s 0 0 in
    let '(m, nf, r2) :=
      match r1 with
      | String "." t => digits 10 t ip 0
      | _ => (ip, 0%nat, r1)
      end in
    if (ni + nf =? 0)%nat then nan
    else match exponentPart r2 with
         | Some e => decimalValue neg m (e - Z.of_nat nf)
         | None => nan
         end.

(** NonDecimalIntegerLiteral: [0x], [0o] and [0b] literals take no sign. *)
Definition nonDecimalIntegerLiteral (s : string) : option float :=
  match s with
  | String "0" (String c r) =>
      let base :=
        if Ascii.eqb c "x" || Ascii.eqb c "X" then Some 16%N
        else if Ascii.eqb c "o" || Ascii.eqb c "O" then Some 8%N
        else if Ascii.eqb c "b" || Ascii.eqb c "B" then Some 2%N
        else None in
      match base with
      | Some b =>
          Some match digits b r 0 0 with
               | (v, S _, EmptyString) => roundRatio false v 1
               | _ => nan
               end
      | None => None
      end
  | _ => None
  end.

(** [Number(s)] for a string [s] (StringToNumber): white space around the
    literal is ignored, the empty literal is [+0], anything outside the
    grammar is [NaN]; the value is rounded exactly. *)
Definition Number (s : string) : float :=
  match trim s with
  | EmptyString => zero
  | t =>
      match nonDecimalIntegerLiteral t with
      | Some x => x
      | None =>
          match t with
          | String "+" r => strUnsignedDecimalLiteral false r
          | String "-" r => strUnsignedDecimalLiteral true r
          | _ => strUnsignedDecimalLiteral false t
          end
      end
  end.

(** [isNaN(x)] *)
Definition isNaN (x : float) : bool := is_nan x.

End JsNumber.
Import JsNumber.

(** ** Regular expressions of the source *)

Definition isHexDigit (c : ascii) : bool :=
  let n := N_of_ascii c in
  ((48 <=? n)%N && (n <=? 57)%N) || ((97 <=? n)%N && (n <=? 102)%N)
  || ((65 <=? n)%N && (n <=? 70)%N).

Fixpoint allHex (s : string) : bool :=
  match s with
  | String c s' => isHexDigit c && allHex s'
  | EmptyString => true
  end.

(** [/^[a-fA-F0-9]{n}$/i]: the case-insensitive flag adds no code unit to a
    class that already holds both cases. *)
Definition re_hex_exactly (n : nat) (s : string) : bool :=
  (String.length s =? n)%nat && allHex s.

(** [/^0x[a-fA-F0-9]{40}$/i]: under the [i] flag the literal [x] also matches
    [X]. *)
Definition re_address_i (s : string) : bool :=
  match s with
  | String c0 (String c1 h) =>
      Ascii.eqb c0 "0" && (Ascii.eqb c1 "x" || Ascii.eqb c1 "X") && re_hex_exactly 40 h
  | _ => false
  end.

(** [/^[0-9a-fA-F]+$/] *)
Definition re_hex_plus (s : string) : bool :=
  negb (String.eqb s EmptyString) && allHex s.

(** ** validation.util.ts *)

Record ValidationError := mkValidationError { message : string; field : string }.

Inductive result (A : Type) : Type :=
| Ok (a : A)
| Throw (e : ValidationError).
Arguments Ok {A} a.
Arguments Throw {A} e.

#[global] Instance result_ret : MRet result := fun A a => Ok a.
#[global] Instance result_bind : MBind result := fun A B k m =>
  match m with
  | Ok a => k a
  | Throw e => Throw e
  end.

Definition isValidEthereumAddress (address : string) : bool :=
  if String.eqb address "" then false
  else re_address_i (trim address).

Definition isValidPrivateKey (key : string) : bool :=
  if String.eqb key "" then false
  else
    let trimmed := trim key in
    let cleanKey := if startsWith "0x" trimmed then slice 2 trimmed else trimmed in
    re_hex_exactly 64 cleanKey.

Definition normalizePrivateKey (key : string) : result string :=
  if String.eqb key "" then
    Throw (mkValidationError "Private key must be a non-empty string" "PRIVATE_KEY")
  else
    let trimmed := trim key in
    if startsWith "suiprivkey" trimmed then
      Throw (mkValidationError
        ("Detected Sui private key format. This bot requires Polygon (Ethereum-compatible) private keys."
         +:+ nl +:+
         "Please export your Polygon wallet private key (hex format, 64 characters).")
        "PRIVATE_KEY")
    else if (64 <? String.length trimmed)%nat && negb (startsWith "0x" trimmed)
            && negb (re_hex_plus trimmed) then
      Throw (mkValidationError
        ("Detected invalid private key format. This bot requires Polygon (Ethereum-compatible) private keys."
         +:+ nl +:+
         "Please export your Polygon wallet private key (hex format, 64 characters).")
        "PRIVATE_KEY")
    else if negb (isValidPrivateKey trimmed) then
      Throw (mkValidationError
        ("Invalid private key format. Expected hex format (64 characters, optionally prefixed with 0x)."
         +:+ nl +:+
         "Got: " +:+ substring0 20 trimmed +:+ "... (length: "
         +:+ ofNat (String.length trimmed) +:+ ")")
        "PRIVATE_KEY")
    else
      let cleanKey := if startsWith "0x" trimmed then slice 2 trimmed else trimmed in
      Ok ("0x" +:+ cleanKey).

Definition normalizeAddress (address : string) : result string :=
  if String.eqb address "" then
    Throw (mkValidationError "Address must be a non-empty string" "ADDRESS")
  else
    let trimmed := trim address in
    if negb (isValidEthereumAddress trimmed) then
      Throw (mkValidationError
        ("Invalid Ethereum/Polygon address format. Expected format: 0x followed by 40 hex characters."
         +:+ nl +:+
         "Got: " +:+ substring0 20 trimmed +:+ "...")
        "ADDRESS")
    else Ok (toLowerCase trimmed).

(** The body of the [forEach] callback of [validateAddresses]: the two
    accumulators [normalized] and [errors] after visiting [addr] at [index]. *)
Definition visitAddress (acc : list string * list string) (index : nat) (addr : string)
  : list string * list string :=
  let '(normalized, errors) := acc in
  match normalizeAddress addr with
  | Ok a => ((normalized ++ [a])%list, errors)
  | Throw err =>
      (normalized, (errors ++ ["Address[" +:+ ofNat index +:+ "]: " +:+ message err])%list)
  end.

Fixpoint forEachAddress (acc : list string * list string) (index : nat)
  (addresses : list string) : list string * list string :=
  match addresses with
  | [] => acc
  | addr :: rest => forEachAddress (visitAddress acc index addr) (S index) rest
  end.

Definition validateAddresses (addresses : list string) : result (list string) :=
  match addresses with
  | [] =>
      Throw (mkValidationError "At least one target address is required" "TARGET_ADDRESSES")
  | _ =>
      let '(normalized, errors) := forEachAddress ([], []) 0 addresses in
      if (0 <? length errors)%nat then
        Throw (mkValidationError
          ("Invalid addresses found:" +:+ nl +:+ join nl errors) "TARGET_ADDRESSES")
      else Ok normalized
  end.

(** ** env.ts *)

(** A value produced by [JSON.parse]. *)
Inductive json : Type :=
| JNull
| JBool (b : bool)
| JNumber (x : float)
| JString (s : string)
| JArray (items : list json)
| JObject (members : list (string * json)).

(** The built-ins of the JavaScript runtime that [loadEnv] reaches and that
    are not embedded here. *)
Class Runtime : Type := {
  (** [JSON.parse(text)]; [None] when it throws a SyntaxError *)
  JSON_parse : string -> option json;
  (** [String(x)] for a number [x] *)
  Number_toString : float -> string;
  (** [new URL(url).protocol]; [None] when the constructor throws *)
  URL_protocol : string -> option string
}.

Record RuntimeEnv := mkRuntimeEnv {
  targetAddresses : list string;
  proxyWallet : string;
  privateKey : string;
  mongoUri : option string;
  rpcUrl : string;
  fetchIntervalSeconds : float;
  tradeMultiplier : float;
  retryLimit : float;
  aggregationEnabled : bool;
  aggregationWindowSeconds : float;
  usdcContractAddress : string;
  polymarketApiKey : option string;
  polymarketApiSecret : option string;
  polymarketApiPassphrase : option string;
  minTradeSizeUsd : option float;
  frontrunSizeMultiplier : option float;
  gasPriceMultiplier : option float
}.

(** [process.env]: every variable that is set holds a string. *)
Abbreviation ProcessEnv := (gmap string string).

(** How [loadEnv] ends: it returns the configuration, or its [catch] block
    reports [err.field] and [err.message] on the console and calls
    [process.exit(code)]. *)
Inductive outcome : Type :=
| Returned (env : RuntimeEnv)
| Exited (code : Z) (err : ValidationError).

Section EnvTs.
Context `{Runtime}.

(** An object made by [JSON.parse] has an own property of this name. *)
Definition hasOwn (name : string) (members : list (string * json)) : bool :=
  existsb (fun member => String.eqb (fst member) name) members.

(** [String(j)], the callback of [maybeJson.map(String)]; [None] when it
    throws a TypeError.  An object is converted by the inherited [toString]
    to ["[object Object]"], unless it has an own property [toString]: that
    one, never callable in parsed JSON, hides the inherited method, the
    inherited [valueOf] returns the object itself, and the conversion
    throws.  An array is the join of its elements, [null] counting as the
    empty string. *)
Fixpoint ToString (j : json) : option string :=
  match j with
  | JNull => Some "null"
  | JBool b => Some (if b then "true" else "false")
  | JNumber x => Some (Number_toString x)
  | JString s => Some s
  | JArray items =>
      let fix elements (l : list json) : option (list string) :=
        match l with
        | [] => Some []
        | e :: rest =>
            match (match e with JNull => Some "" | _ => ToString e end), elements rest with
            | Some s, Some ss => Some (s :: ss)
            | _, _ => None
            end
        end in
      match elements items with
      | Some ss => Some (join "," ss)
      | None => None
      end
  | JObject members =>
      if hasOwn "toString" members then None else Some "[object Object]"
  end.

(** [items.map(String)]; [None] when the conversion of an item throws. *)
Fixpoint mapString (items : list json) : option (list string) :=
  match items with
  | [] => Some []
  | item :: rest =>
      match ToString item, mapString rest with
      | Some s, Some ss => Some (s :: ss)
      | _, _ => None
      end
  end.

(** Truthiness of a string, as [filter(Boolean)] tests it. *)
Definition Boolean (s : string) : bool := negb (String.eqb s "").

(** [parseList]: the [catch] of lines 35-37 swallows the SyntaxError of
    [JSON.parse] and the TypeError of [String], and the comma-separated
    reading of the raw text follows. *)
Definition parseList (val : option string) : list string :=
  match val with
  | None => []
  | Some v =>
      if negb (Boolean v) then []
      else
        let commaSeparated := List.filter Boolean (List.map trim (splitComma v)) in
        match JSON_parse v with
        | Some (JArray items) =>
            match mapString items with
            | Some strings => strings
            | None => commaSeparated
            end
        | _ => commaSeparated
        end
  end.

Definition required (name : string) (v : option string) : result string :=
  match v with
  | Some s =>
      if Boolean s then Ok s
      else Throw (mkValidationError
             ("Missing required environment variable: " +:+ name +:+ nl +:+
              "Please set " +:+ name +:+ " in your .env file.") name)
  | None =>
      Throw (mkValidationError
        ("Missing required environment variable: " +:+ name +:+ nl +:+
         "Please set " +:+ name +:+ " in your .env file.") name)
  end.

Definition isValidRpcUrl (url : string) : bool :=
  if negb (Boolean url) then false
  else match URL_protocol url with
       | Some protocol => String.eqb protocol "http:" || String.eqb protocol "https:"
       | None => false
       end.

(** [Number(v ?? dflt)] for a variable [v] of [process.env] *)
Definition numberOr (v : option string) (dflt : float) : float :=
  match v with
  | Some s => Number s
  | None => dflt
  end.

(** [`${v}`] for a variable [v] of [process.env] *)
Definition interpolate (v : option string) : string :=
  match v with
  | Some s => s
  | None => "undefined"
  end.

(** Lines 66-74: the RPC URL. *)
Definition checkRpcUrl (env : ProcessEnv) : result string :=
  rpc ← required "RPC_URL" (env !! "RPC_URL");
  let rpcUrl := trim rpc in
  if negb (isValidRpcUrl rpcUrl) then
    Throw (mkValidationError
      ("Invalid RPC_URL format. Expected HTTP or HTTPS URL." +:+ nl +:+
       "Got: " +:+ rpcUrl) "RPC_URL")
  else Ok rpcUrl.

(** Lines 77-84: the poll interval. *)
Definition checkFetchInterval (env : ProcessEnv) : result float :=
  let fetchIntervalSeconds := numberOr (env !! "FETCH_INTERVAL") 1 in
  if isNaN fetchIntervalSeconds || (fetchIntervalSeconds <? 0.1)%float then
    Throw (mkValidationError
      ("Invalid FETCH_INTERVAL. Must be a positive number (seconds)." +:+ nl +:+
       "Got: " +:+ interpolate (env !! "FETCH_INTERVAL")) "FETCH_INTERVAL")
  else Ok fetchIntervalSeconds.

(** Lines 86-93: the frontrun size multiplier. *)
Definition checkFrontrunSizeMultiplier (env : ProcessEnv) : result float :=
  let frontrunSizeMultiplier := numberOr (env !! "FRONTRUN_SIZE_MULTIPLIER") 0.5 in
  if isNaN frontrunSizeMultiplier || (frontrunSizeMultiplier <? 0)%float
     || (1 <? frontrunSizeMultiplier)%float then
    Throw (mkValidationError
      ("Invalid FRONTRUN_SIZE_MULTIPLIER. Must be between 0.0 and 1.0." +:+ nl +:+
       "Got: " +:+ interpolate (env !! "FRONTRUN_SIZE_MULTIPLIER"))
      "FRONTRUN_SIZE_MULTIPLIER")
  else Ok frontrunSizeMultiplier.

(** Lines 95-102: the gas price multiplier. *)
Definition checkGasPriceMultiplier (env : ProcessEnv) : result float :=
  let gasPriceMultiplier := numberOr (env !! "GAS_PRICE_MULTIPLIER") 1.2 in
  if isNaN gasPriceMultiplier || (gasPriceMultiplier <? 1.0)%float then
    Throw (mkValidationError
      ("Invalid GAS_PRICE_MULTIPLIER. Must be >= 1.0." +:+ nl +:+
       "Got: " +:+ interpolate (env !! "GAS_PRICE_MULTIPLIER")) "GAS_PRICE_MULTIPLIER")
  else Ok gasPriceMultiplier.

(** The [try] block of [loadEnv], lines 55-124. *)
Definition loadEnv_try (env : ProcessEnv) : result RuntimeEnv :=
  let rawTargetAddresses := parseList (env !! "TARGET_ADDRESSES") in
  targetAddresses ← validateAddresses rawTargetAddresses;
  publicKey ← required "PUBLIC_KEY" (env !! "PUBLIC_KEY");
  proxyWallet ← normalizeAddress publicKey;
  rawPrivateKey ← required "PRIVATE_KEY" (env !! "PRIVATE_KEY");
  privateKey ← normalizePrivateKey rawPrivateKey;
  rpcUrl ← checkRpcUrl env;
  fetchIntervalSeconds ← checkFetchInterval env;
  frontrunSizeMultiplier ← checkFrontrunSizeMultiplier env;
  gasPriceMultiplier ← checkGasPriceMultiplier env;
  Ok {|
    targetAddresses := targetAddresses;
    proxyWallet := proxyWallet;
    privateKey := privateKey;
    mongoUri := env !! "MONGO_URI";
    rpcUrl := rpcUrl;
    fetchIntervalSeconds := fetchIntervalSeconds;
    tradeMultiplier := numberOr (env !! "TRADE_MULTIPLIER") 1.0;
    retryLimit := numberOr (env !! "RETRY_LIMIT") 3;
    aggregationEnabled :=
      String.eqb (default "false" (env !! "TRADE_AGGREGATION_ENABLED")) "true";
    aggregationWindowSeconds := numberOr (env !! "TRADE_AGGREGATION_WINDOW_SECONDS") 300;
    usdcContractAddress :=
      match env !! "USDC_CONTRACT_ADDRESS" with
      | Some a => if Boolean a then a else "0x2791Bca1f2de4661ED88A30C99A7a9449Aa84174"
      | None => "0x2791Bca1f2de4661ED88A30C99A7a9449Aa84174"
      end;
    polymarketApiKey := env !! "POLYMARKET_API_KEY";
    polymarketApiSecret := env !! "POLYMARKET_API_SECRET";
    polymarketApiPassphrase := env !! "POLYMARKET_API_PASSPHRASE";
    minTradeSizeUsd := Some (numberOr (env !! "MIN_TRADE_SIZE_USD") 100);
    frontrunSizeMultiplier := Some frontrunSizeMultiplier;
    gasPriceMultiplier := Some gasPriceMultiplier
  |}.

(** [loadEnv]: every exception of the [try] block is a [ValidationError], so
    the [catch] block always takes the branch that exits with code 1. *)
Definition loadEnv (env : ProcessEnv) : outcome :=
  match loadEnv_try env with
  | Ok env => Returned env
  | Throw err => Exited 1 err
  end.

End EnvTs.

(** ** clob-client.factory.ts *)

Module ClobClientFactory.

Record CreateClientInput := mkCreateClientInput {
  rpcUrl : string;
  privateKey : string;
  apiKey : option string;
  apiSecret : option string;
  apiPassphrase : option string
}.

(** What the factory reads of an ethers [Wallet]. *)
Record Wallet := mkWallet { address : string }.

Record ApiKeyCreds := mkApiKeyCreds { key : string; secret : string; passphrase : string }.

Inductive Chain : Type := POLYGON | AMOY.

(** A [ClobClient], as the arguments of its constructor. *)
Record ClobClient := mkClobClient {
  host : string;
  chain : Chain;
  signer : Wallet;
  creds : option ApiKeyCreds
}.

(** The libraries behind the factory.  A call that throws is [inl] of the
    message the factory reads from the thrown value
    ([err instanceof Error ? err.message : String(err)]). *)
Class Libraries : Type := {
  Provider : Type;
  (** [new providers.JsonRpcProvider(url)] followed by [await provider.getNetwork()] *)
  connect : string -> string + Provider;
  (** [new Wallet(privateKey, provider)] *)
  newWallet : string -> Provider -> string + Wallet;
  (** [new ClobClient(host, chain, wallet, creds)] *)
  newClobClient : string -> Chain -> Wallet -> option ApiKeyCreds -> string + ClobClient
}.

(** The calls that leave the process. *)
Inductive Event : Type :=
| RpcConnect (url : string)
| WalletCreate
| ClobClientCreate.

(** What a [throw] carries: a [ValidationError], a plain [Error] built by the
    factory, or the value thrown by a library. *)
Inductive Thrown : Type :=
| ValidationErr (e : ValidationError)
| PlainError (msg : string)
| LibraryError (msg : string).

(** [err instanceof Error ? err.message : String(err)] *)
Definition messageOf (t : Thrown) : string :=
  match t with
  | ValidationErr e => message e
  | PlainError msg => msg
  | LibraryError msg => msg
  end.

(** A computation of the factory: the external calls made, in order, and
    the value returned or thrown. *)
Definition Eff (A : Type) : Type := list Event * (Thrown + A).

#[global] Instance Eff_ret : MRet Eff := fun A a => ([], inr a).
#[global] Instance Eff_bind : MBind Eff := fun A B k m =>
  match m with
  | (t, inl e) => (t, inl e)
  | (t, inr a) => let '(t', r) := k a in ((t ++ t')%list, r)
  end.

Definition throw {A : Type} (e : Thrown) : Eff A := ([], inl e).

(** [try { m } catch (err) { handler err }] *)
Definition tryCatch {A : Type} (m : Eff A) (handler : Thrown -> Eff A) : Eff A :=
  match m with
  | (t, inl e) => let '(t', r) := handler e in ((t ++ t')%list, r)
  | (t, inr a) => (t, inr a)
  end.

(** A call of a library, recorded as [ev]. *)
Definition call {A : Type} (ev : Event) (r : string + A) : Eff A :=
  ([ev], match r with
         | inl msg => inl (LibraryError msg)
         | inr a => inr a
         end).

(** Truthiness of an optional string. *)
Definition truthy (v : option string) : bool :=
  match v with
  | Some s => negb (String.eqb s "")
  | None => false
  end.

Section Factory.
Context `{Libraries}.

Definition createPolymarketClient (input : CreateClientInput) : Eff (ClobClient * Wallet) :=
  tryCatch
    (normalizedPrivateKey ←
       match normalizePrivateKey (privateKey input) with
       | Ok k => mret k
       | Throw e => throw (ValidationErr e)
       end;
     provider ←
       tryCatch (call (RpcConnect (rpcUrl input)) (connect (rpcUrl input)))
         (fun err => throw (PlainError
            ("Failed to connect to RPC endpoint: " +:+ rpcUrl input +:+ nl +:+
             "Error: " +:+ messageOf err +:+ nl +:+
             "Please verify your RPC_URL is correct and accessible.")));
     wallet ←
       tryCatch (call WalletCreate (newWallet normalizedPrivateKey provider))
         (fun err => throw (PlainError
            ("Failed to create wallet from private key." +:+ nl +:+
             "Error: " +:+ messageOf err +:+ nl +:+
             "Please verify your PRIVATE_KEY is a valid Polygon (Ethereum-compatible) private key.")));
     if String.eqb (address wallet) "" || negb (re_address_i (address wallet)) then
       throw (PlainError ("Invalid wallet address generated: " +:+ address wallet))
     else
       let creds :=
         if truthy (apiKey input) && truthy (apiSecret input) && truthy (apiPassphrase input)
         then Some {| key := default "" (apiKey input);
                      secret := default "" (apiSecret input);
                      passphrase := default "" (apiPassphrase input) |}
         else None in
       client ← call ClobClientCreate
                  (newClobClient "https://clob.polymarket.com" POLYGON wallet creds);
       mret (client, wallet))
    (fun err =>
       match err with
       | ValidationErr e => throw (ValidationErr e)
       | _ => throw (PlainError
                ("Failed to create Polymarket client: " +:+ messageOf err))
       end).

End Factory.

End ClobClientFactory.

(** * The detection-and-reaction core *)

(** ** Data model *)

Module Core.

(** Modelled from the spec: the enumerations of the data model of section 3,
    whose type declarations are not under src/. *)
Inductive SourceType : Type := live | polled.
Inductive Side : Type := buy | sell.
Inductive ConfirmationState : Type := pending | confirmed | unknown.

(** Modelled from the spec: the TradeSignal of section 3, whose declaration
    is not under src/. *)
Record TradeSignal := mkTradeSignal {
  id : string;
  sourceType : SourceType;
  account : string;
  marketId : string;
  outcomeId : string;
  side : Side;
  sizeUsd : float;
  price : float;
  detectedAt : Z;
  confirmationState : ConfirmationState
}.

(** Modelled from the spec: the (account, market, side) key of aggregation
    and of the in-flight lock, sections 3 and 4.5. *)
Record Key := mkKey { keyAccount : string; keyMarket : string; keySide : Side }.

(** Modelled from the spec: the AggregatedSignal of section 3. *)
Record AggregatedSignal := mkAggregatedSignal {
  aggregationKey : Key;
  netSizeUsd : float;
  windowStart : Z;
  windowEnd : Z;
  memberIds : list string
}.

(** Modelled from the spec: the ExecutionRequest of section 3. *)
Record ExecutionRequest := mkExecutionRequest {
  requestKey : Key;
  requestedSizeUsd : float;
  gasPriceHint : float;
  originSignalIds : list string
}.

Definition Side_eqb (a b : Side) : bool :=
  match a, b with
  | buy, buy | sell, sell => true
  | _, _ => false
  end.

Definition Key_eqb (a b : Key) : bool :=
  String.eqb (keyAccount a) (keyAccount b) && String.eqb (keyMarket a) (keyMarket b)
  && Side_eqb (keySide a) (keySide b).

End Core.

(** ** Signal Merger *)

Module Merger.
Import Core.

(** Modelled from the spec: the retention of the Merger's identity cache,
    whose code is not under src/.  Section 3 lets the deduplication state
    live "for the lifetime of the process (or a bounded retention window)",
    and section 4.3 bounds the cache by "time- or count-based eviction". *)
Inductive Retention : Type :=
| Lifetime
| CountBound (capacity : nat)
| TimeHorizon (horizon : Z).

(** Modelled from the spec: the eviction of section 4.3.  The cache holds
    the newest entry first; a count bound keeps the [capacity] newest
    entries, a time horizon keeps the entries detected at most [horizon]
    before [now]. *)
Definition evict (r : Retention) (now : Z) (cache : list TradeSignal) : list TradeSignal :=
  match r with
  | Lifetime => cache
  | CountBound capacity => take capacity cache
  | TimeHorizon horizon => List.filter (fun c => (now - detectedAt c <=? horizon)%Z) cache
  end.

(** Modelled from the spec: the lookup in the identity cache keyed by [id]. *)
Definition isSeen (i : string) (cache : list TradeSignal) : bool :=
  existsb (fun c => String.eqb (id c) i) cache.

(** Modelled from the spec: "the duplicate carries newer information (e.g.,
    polled-confirmed overriding live-pending)". *)
Definition carriesNewer (duplicate original : TradeSignal) : bool :=
  match confirmationState duplicate, confirmationState original with
  | confirmed, pending | confirmed, unknown => true
  | _, _ => false
  end.

(** Modelled from the spec: the update of [confirmationState] on the
    original of a duplicate. *)
Definition refresh (duplicate original : TradeSignal) : TradeSignal :=
  if String.eqb (id original) (id duplicate) && carriesNewer duplicate original then
    {| id := id original; sourceType := sourceType original; account := account original;
       marketId := marketId original; outcomeId := outcomeId original;
       side := side original; sizeUsd := sizeUsd original; price := price original;
       detectedAt := detectedAt original;
       confirmationState := confirmationState duplicate |}
  else original.

(** Modelled from the spec: the state the Merger owns, its retention policy
    and its identity cache. *)
Record MergerState := mkMergerState {
  retention : Retention;
  cache : list TradeSignal
}.

(** Modelled from the spec: the Signal Merger of section 4.3, whose code is
    not under src/.  "For each incoming TradeSignal, checks a short-horizon
    identity cache keyed by [id]; if unseen, records it and forwards; if
    seen, drops the duplicate but updates [confirmationState] on the
    original if the duplicate carries newer information."  The result is the
    next state and the signal forwarded, if any. *)
Definition onSignal (m : MergerState) (s : TradeSignal) : MergerState * option TradeSignal :=
  let retained := evict (retention m) (detectedAt s) (cache m) in
  if isSeen (id s) retained then
    ({| retention := retention m; cache := List.map (refresh s) retained |}, None)
  else
    ({| retention := retention m;
        cache := evict (retention m) (detectedAt s) (s :: retained) |}, Some s).

(** Modelled from the spec: the Merger over "the union of both sources'
    output as an ordered stream"; the final state and the signals forwarded
    downstream, in order. *)
Fixpoint run (m : MergerState) (stream : list TradeSignal) : MergerState * list TradeSignal :=
  match stream with
  | [] => (m, [])
  | s :: rest =>
      let '(m1, out) := onSignal m s in
      let '(m2, outs) := run m1 rest in
      (m2, match out with
           | Some f => f :: outs
           | None => outs
           end)
  end.

(** Modelled from the spec: the signals a fresh Merger forwards. *)
Definition forwarded (r : Retention) (stream : list TradeSignal) : list TradeSignal :=
  snd (run {| retention := r; cache := [] |} stream).

End Merger.

(** ** Decision Engine *)

Module DecisionEngine.
Import Core.

(** Modelled from the spec: the part of the configuration surface of
    section 6 that the Decision Engine consumes. *)
Record Config := mkConfig {
  minTradeSizeUsd : float;
  frontrunSizeMultiplier : float;
  gasPriceMultiplier : float
}.

(** Modelled from the spec: the balance oracle and the gas price oracle of
    section 6. *)
Record Oracles := mkOracles {
  hasSufficientBalance : string -> Side -> float -> bool;
  currentGasPrice : float
}.

(** Modelled from the spec: the skipped statuses of an ExecutionOutcome. *)
Inductive Disposition : Type :=
| skipped_below_threshold
| skipped_duplicate
| skipped_insufficient_balance.

(** Modelled from the spec: what the Decision Engine does with a signal. *)
Inductive Decision : Type :=
| Emit (request : ExecutionRequest)
| Skip (status : Disposition).

(** Modelled from the spec: the Decision Engine of section 4.5, whose code is
    not under src/.  Steps 1 to 5 in order, with the edge case that a
    request of size 0 "must be treated as below-threshold rather than
    submitted".  The result is the in-flight keys afterwards and the
    decision. *)
Definition decide (cfg : Config) (o : Oracles) (inFlight : list Key)
  (signal : AggregatedSignal) : list Key * Decision :=
  let k := aggregationKey signal in
  let requestedSizeUsd := (netSizeUsd signal * frontrunSizeMultiplier cfg)%float in
  if (netSizeUsd signal <? minTradeSizeUsd cfg)%float || (requestedSizeUsd =? 0)%float then
    (inFlight, Skip skipped_below_threshold)
  else if existsb (Key_eqb k) inFlight then
    (inFlight, Skip skipped_duplicate)
  else if negb (hasSufficientBalance o (keyAccount k) (keySide k) requestedSizeUsd) then
    (inFlight, Skip skipped_insufficient_balance)
  else
    let gasPriceHint := (currentGasPrice o * gasPriceMultiplier cfg)%float in
    (k :: inFlight,
     Emit {| requestKey := k;
             requestedSizeUsd := requestedSizeUsd;
             gasPriceHint := gasPriceHint;
             originSignalIds := memberIds signal |}).

End DecisionEngine.

(** ** Predicates used in the statements *)

Definition headNotSpace (s : string) : bool :=
  match s with
  | String c _ => negb (isWhiteSpace c)
  | EmptyString => true
  end.

Fixpoint noWhiteSpace (s : string) : bool :=
  match s with
  | String c s' => negb (isWhiteSpace c) && noWhiteSpace s'
  | EmptyString => true
  end.

(** A string in the normal form of a private key: ["0x"] followed by exactly
    64 hexadecimal characters. *)
Definition isNormalPrivateKey (r : string) : Prop :=
  exists h, r = "0x" +:+ h /\ String.length h = 64%nat /\ allHex h = true.

(** The address format of [normalizeAddress]'s results: ["0x"] followed by
    exactly 40 hexadecimal characters. *)
Definition isAddressFormat (a : string) : Prop :=
  exists h, a = "0x" +:+ h /\ String.length h = 40%nat /\ allHex h = true.

(** [normalizeAddress] throws on this entry. *)
Definition addressRejected (a : string) : bool :=
  match normalizeAddress a with
  | Ok _ => false
  | Throw _ => true
  end.

(** A computation of the [try] block that throws. *)
Definition rejects {A : Type} (r : result A) : Prop := exists err, r = Throw err.

(** [0 <= x <= 1]; a comparison with [NaN] is false. *)
Definition inUnitRange (x : float) : bool := ((0 <=? x) && (x <=? 1))%float.

(** [x >= 1.0] *)
Definition atLeastOne (x : float) : bool := (1.0 <=? x)%float.

(** [x >= 0.1], the floor of the poll interval *)
Definition atLeastFloor (x : float) : bool := (0.1 <=? x)%float.

Section EnvPredicates.
Context `{Runtime}.

(** The validations of [loadEnv] that come before the numeric ones succeed:
    target addresses, PUBLIC_KEY, PRIVATE_KEY and RPC_URL. *)
Definition identityChecksPass (env : ProcessEnv) : Prop :=
  (exists tas, validateAddresses (parseList (env !! "TARGET_ADDRESSES")) = Ok tas)
  /\ (exists pub pw,
        required "PUBLIC_KEY" (env !! "PUBLIC_KEY") = Ok pub /\ normalizeAddress pub = Ok pw)
  /\ (exists raw pk,
        required "PRIVATE_KEY" (env !! "PRIVATE_KEY") = Ok raw
        /\ normalizePrivateKey raw = Ok pk)
  /\ (exists rpc, checkRpcUrl env = Ok rpc).

(** The configuration [loadEnv] builds from the values that passed validation. *)
Definition builtEnv (env : ProcessEnv) (tas : list string) (pw pk rpc : string)
  (fi fr gas : float) : RuntimeEnv :=
  {| targetAddresses := tas;
     proxyWallet := pw;
     privateKey := pk;
     mongoUri := env !! "MONGO_URI";
     rpcUrl := rpc;
     fetchIntervalSeconds := fi;
     tradeMultiplier := numberOr (env !! "TRADE_MULTIPLIER") 1.0;
     retryLimit := numberOr (env !! "RETRY_LIMIT") 3;
     aggregationEnabled :=
       String.eqb (default "false" (env !! "TRADE_AGGREGATION_ENABLED")) "true";
     aggregationWindowSeconds := numberOr (env !! "TRADE_AGGREGATION_WINDOW_SECONDS") 300;
     usdcContractAddress :=
       match env !! "USDC_CONTRACT_ADDRESS" with
       | Some a => if Boolean a then a else "0x2791Bca1f2de4661ED88A30C99A7a9449Aa84174"
       | None => "0x2791Bca1f2de4661ED88A30C99A7a9449Aa84174"
       end;
     polymarketApiKey := env !! "POLYMARKET_API_KEY";
     polymarketApiSecret := env !! "POLYMARKET_API_SECRET";
     polymarketApiPassphrase := env !! "POLYMARKET_API_PASSPHRASE";
     minTradeSizeUsd := Some (numberOr (env !! "MIN_TRADE_SIZE_USD") 100);
     frontrunSizeMultiplier := Some fr;
     gasPriceMultiplier := Some gas |}.

(** The validation failures of [loadEnv]: a missing required variable, an
    invalid address, an invalid private key, an invalid RPC URL, a numeric
    value out of range. *)
Inductive ValidationFailure (env : ProcessEnv) : Prop :=
| MissingRequired (name : string) :
    name = "PUBLIC_KEY" \/ name = "PRIVATE_KEY" \/ name = "RPC_URL" ->
    env !! name = None \/ env !! name = Some "" ->
    ValidationFailure env
| InvalidTargetAddresses :
    rejects (validateAddresses (parseList (env !! "TARGET_ADDRESSES"))) ->
    ValidationFailure env
| InvalidPublicKey (a : string) :
    env !! "PUBLIC_KEY" = Some a -> rejects (normalizeAddress a) ->
    ValidationFailure env
| InvalidPrivateKey (k : string) :
    env !! "PRIVATE_KEY" = Some k -> rejects (normalizePrivateKey k) ->
    ValidationFailure env
| InvalidRpcUrl (u : string) :
    env !! "RPC_URL" = Some u -> isValidRpcUrl (trim u) = false ->
    ValidationFailure env
| FetchIntervalOutOfRange (v : string) :
    env !! "FETCH_INTERVAL" = Some v ->
    isNaN (Number v) = true \/ (Number v <? 0.1)%float = true ->
    ValidationFailure env
| FrontrunSizeMultiplierOutOfRange (v : string) :
    env !! "FRONTRUN_SIZE_MULTIPLIER" = Some v ->
    isNaN (Number v) = true \/ (Number v <? 0)%float = true
    \/ (1 <? Number v)%float = true ->
    ValidationFailure env
| GasPriceMultiplierOutOfRange (v : string) :
    env !! "GAS_PRICE_MULTIPLIER" = Some v ->
    isNaN (Number v) = true \/ (Number v <? 1.0)%float = true ->
    ValidationFailure env.

End EnvPredicates.

(** A runtime for the examples: its [JSON.parse] takes no text for JSON and
    its [URL] reads the protocol of [http://] and [https://] URLs, which is
    what the real ones do on the inputs of the examples. *)
Definition sampleRuntime : Runtime :=
  {| JSON_parse := fun _ => None;
     Number_toString := fun _ => "";
     URL_protocol := fun url =>
       if startsWith "https://" url then Some "https:"
       else if startsWith "http://" url then Some "http:"
       else None |}.

(** An environment that [loadEnv] accepts. *)
Definition sampleEnv : ProcessEnv :=
  list_to_map
    [("TARGET_ADDRESSES",
      "0x1111111111111111111111111111111111111111, 0xAbCdEf2222222222222222222222222222222222");
     ("PUBLIC_KEY", "0x3333333333333333333333333333333333333333");
     ("PRIVATE_KEY", "4444444444444444444444444444444444444444444444444444444444444444");
     ("RPC_URL", "https://polygon-rpc.com")].

(** [sampleEnv] with a retry limit and a minimum trade size that are not
    numbers. *)
Definition unvalidatedEnv : ProcessEnv :=
  <["RETRY_LIMIT" := "three"]> (<["MIN_TRADE_SIZE_USD" := "abc"]> sampleEnv).

(** Libraries for the examples: the endpoint is unreachable. *)
Definition offlineLibraries : ClobClientFactory.Libraries :=
  {| ClobClientFactory.Provider := unit;
     ClobClientFactory.connect := fun _ => inl "could not detect network";
     ClobClientFactory.newWallet := fun _ _ => inl "unreachable";
     ClobClientFactory.newClobClient := fun _ _ _ _ => inl "unreachable" |}.

Module MergerSpec.
Import Core Merger.

Definition ids (signals : list TradeSignal) : list string := List.map id signals.

(** The number of signals of [out] that carry the id [i]. *)
Definition countId (i : string) (out : list TradeSignal) : nat :=
  length (List.filter (fun s => String.eqb (id s) i) out).

(** The retention is wide enough for the stream, so that no entry is evicted
    while the stream is merged: the capacity is at least the number of
    distinct ids, the horizon at least the spread of the detection times. *)
Definition covers (r : Retention) (stream : list TradeSignal) : Prop :=
  match r with
  | Lifetime => True
  | CountBound capacity => length (remove_dups (ids stream)) <= capacity
  | TimeHorizon horizon =>
      forall x y, In x stream -> In y stream -> (detectedAt y - detectedAt x <= horizon)%Z
  end.

(** What the cache holds while [stream] is merged under a retention that
    covers it: one entry per id, each for an id and a detection time of the
    stream. *)
Definition cacheInv (stream cache : list TradeSignal) : Prop :=
  NoDup (ids cache)
  /\ (forall x, In x cache -> id x ∈ ids stream)
  /\ (forall x, In x cache -> exists y, In y stream /\ detectedAt y = detectedAt x).

Definition signal (i : string) (source : SourceType) (at_ : Z) (state : ConfirmationState)
  : TradeSignal :=
  {| id := i; sourceType := source; account := "0x1111111111111111111111111111111111111111";
     marketId := "market-1"; outcomeId := "yes"; side := buy;
     sizeUsd := 500; price := 0.4; detectedAt := at_; confirmationState := state |}.

(** One trade seen by the live feed, another trade, then the first trade
    again, reported by the poll. *)
Definition replayedStream : list TradeSignal :=
  [signal "0xaaa" live 10 pending; signal "0xbbb" live 11 pending;
   signal "0xaaa" polled 12 confirmed].

(** The state of a fresh Merger once it has merged [prefix]. *)
Definition stateAfter (r : Retention) (prefix : list TradeSignal) : MergerState :=
  fst (run {| retention := r; cache := [] |} prefix).

(** When [s] arrives at the Merger in state [m], its id is still held in the
    identity cache, after the eviction due at that time. *)
Definition held (m : MergerState) (s : TradeSignal) : bool :=
  isSeen (id s) (evict (retention m) (detectedAt s) (cache m)).

(** Every occurrence of the id [i] in the stream, the first apart, arrives
    while [i] is held in the identity cache. *)
Definition retainedThroughout (r : Retention) (stream : list TradeSignal) (i : string)
  : Prop :=
  forall pre s post,
    stream = (pre ++ s :: post)%list -> id s = i -> i ∈ ids pre ->
    held (stateAfter r pre) s = true.

(** Ids that differ by their length. *)
Fixpoint tag (k : nat) : string :=
  match k with
  | O => "t"
  | S k' => String "t" (tag k')
  end.

(** [n] trades with distinct ids, seen by the live feed. *)
Definition distinctSignals (from n : nat) : list TradeSignal :=
  List.map (fun k => signal (tag k) live 0 pending) (seq from n).

(** A stream that outlasts a bounded retention: as many new trades as the
    cache has entries come between a trade and its second report, or the
    second report comes later than the horizon. *)
Definition overflowStream (r : Retention) : list TradeSignal :=
  match r with
  | Lifetime => []
  | CountBound capacity =>
      (distinctSignals 0 (S capacity) ++ [signal (tag 0) polled 0 confirmed])%list
  | TimeHorizon horizon =>
      [signal (tag 0) live 0 pending; signal (tag 0) polled (Z.abs horizon + 1) confirmed]
  end.

(** Two trades, each reported twice, the second long after the first. *)
Definition spacedStream : list TradeSignal :=
  [signal "0xaaa" live 10 pending; signal "0xaaa" polled 11 confirmed;
   signal "0xbbb" live 1000 pending; signal "0xbbb" polled 1001 confirmed].

End MergerSpec.

Module DecisionSpec.
Import Core DecisionEngine.

Definition sampleConfig : Config :=
  {| minTradeSizeUsd := 100; frontrunSizeMultiplier := 0.5; gasPriceMultiplier := 1.2 |}.

(** The balance suffices and the network quotes a gas price of 30. *)
Definition sampleOracles : Oracles :=
  {| hasSufficientBalance := fun _ _ _ => true; currentGasPrice := 30 |}.

Definition sampleSignal : AggregatedSignal :=
  {| aggregationKey :=
       {| keyAccount := "0x1111111111111111111111111111111111111111";
          keyMarket := "market-1"; keySide := buy |};
     netSizeUsd := 500; windowStart := 0; windowEnd := 300;
     memberIds := ["0xaaa"; "0xbbb"] |}.

(** The threshold filter: step 1 of section 4.5, with its edge case of a
    request of size 0. *)
Definition belowThreshold (cfg : Config) (signal : AggregatedSignal) : bool :=
  (netSizeUsd signal <? minTradeSizeUsd cfg)%float
  || (netSizeUsd signal * frontrunSizeMultiplier cfg =? 0)%float.

(** The duplicate filter: the key of the signal already has a request in
    flight. *)
Definition duplicateInFlight (inFlight : list Key) (signal : AggregatedSignal) : bool :=
  existsb (Key_eqb (aggregationKey signal)) inFlight.

(** The balance filter: the balance oracle accepts the response size. *)
Definition balanceSufficient (cfg : Config) (o : Oracles) (signal : AggregatedSignal) : bool :=
  hasSufficientBalance o (keyAccount (aggregationKey signal))
    (keySide (aggregationKey signal))
    (netSizeUsd signal * frontrunSizeMultiplier cfg)%float.

(** The signal passes the threshold, duplicate and balance filters. *)
Definition passesFilters (cfg : Config) (o : Oracles) (inFlight : list Key)
  (signal : AggregatedSignal) : bool :=
  negb (belowThreshold cfg signal) && negb (duplicateInFlight inFlight signal)
  && balanceSufficient cfg o signal.

(** A signal of 400 USD, over the threshold of [sampleConfig]. *)
Definition otherSignal : AggregatedSignal :=
  {| aggregationKey :=
       {| keyAccount := "0x2222222222222222222222222222222222222222";
          keyMarket := "market-2"; keySide := sell |};
     netSizeUsd := 400; windowStart := 0; windowEnd := 300;
     memberIds := ["0xccc"] |}.

End DecisionSpec.

(** ** Predicates of the further properties *)

(** The normal form [normalizeAddress] gives an accepted entry. *)
Definition normalForm (a : string) : string := toLowerCase (trim a).

(** The line [validateAddresses] records for the entry at [index] that
    [normalizeAddress] rejected with [err]. *)
Definition errorLine (index : nat) (err : ValidationError) : string :=
  "Address[" +:+ ofNat index +:+ "]: " +:+ message err.

Fixpoint noComma (s : string) : bool :=
  match s with
  | String c s' => negb (Ascii.eqb c ",") && noComma s'
  | EmptyString => true
  end.

(** An entry of a comma-separated list that [parseList] reads back as it is:
    not empty, without a comma, without white space around it. *)
Definition plainEntry (s : string) : Prop :=
  s <> "" /\ noComma s = true /\ trim s = s.

(** The variables of [process.env] that [loadEnv] reads with a default. *)
Definition defaultedVariables : list string :=
  ["FETCH_INTERVAL"; "FRONTRUN_SIZE_MULTIPLIER"; "GAS_PRICE_MULTIPLIER";
   "TRADE_MULTIPLIER"; "RETRY_LIMIT"; "TRADE_AGGREGATION_ENABLED";
   "TRADE_AGGREGATION_WINDOW_SECONDS"; "USDC_CONTRACT_ADDRESS"; "MIN_TRADE_SIZE_USD"].

(** The fields a configuration error of [loadEnv] can name. *)
Definition errorFields : list string :=
  ["TARGET_ADDRESSES"; "PUBLIC_KEY"; "ADDRESS"; "PRIVATE_KEY"; "RPC_URL";
   "FETCH_INTERVAL"; "FRONTRUN_SIZE_MULTIPLIER"; "GAS_PRICE_MULTIPLIER"].

(** Libraries for the examples: the endpoint answers, the wallet has a fixed
    address and the client keeps the arguments of its constructor. *)
Definition onlineLibraries : ClobClientFactory.Libraries :=
  {| ClobClientFactory.Provider := unit;
     ClobClientFactory.connect := fun _ => inr tt;
     ClobClientFactory.newWallet := fun _ _ =>
       inr {| ClobClientFactory.address := "0x3333333333333333333333333333333333333333" |};
     ClobClientFactory.newClobClient := fun h c w creds =>
       inr {| ClobClientFactory.host := h; ClobClientFactory.chain := c;
              ClobClientFactory.signer := w; ClobClientFactory.creds := creds |} |}.

(** A factory input with a valid key and only part of the API credentials. *)
Definition sampleInput : ClobClientFactory.CreateClientInput :=
  {| ClobClientFactory.rpcUrl := "https://polygon-rpc.com";
     ClobClientFactory.privateKey :=
       "4444444444444444444444444444444444444444444444444444444444444444";
     ClobClientFactory.apiKey := Some "key-1";
     ClobClientFactory.apiSecret := Some "";
     ClobClientFactory.apiPassphrase := None |}.

(** * Properties *)

(** ** Examples of the primitives *)

Example Number_tenth : Number "0.1" = 0.1%float.
Proof. vm_compute. reflexivity. Qed.

Example Number_samples :
  Number " 1.2 " = 1.2%float /\ Number "" = 0%float /\ Number "-0" = (-0)%float
  /\ Number "5e-1" = 0.5%float /\ Number ".5" = 0.5%float /\ Number "1." = 1%float
  /\ Number "0x10" = 16%float /\ Number "1e400" = infinity
  /\ Number "-Infinity" = neg_infinity /\ Number "36" = 36%float
  /\ Number "123456789012345678901234567890" = 123456789012345678901234567890%float
  /\ Number "2.5e-324" = 5e-324%float /\ Number "2.4e-324" = 0%float
  /\ Number "0.30000000000000004" = (0.1 + 0.2)%float.
Proof. vm_compute. repeat split. Qed.

Example Number_not_numeric :
  isNaN (Number "abc") = true /\ isNaN (Number "1,5") = true
  /\ isNaN (Number ".") = true /\ isNaN (Number "1e") = true
  /\ isNaN (Number "-0x10") = true /\ isNaN (Number "12px") = true.
Proof. vm_compute. repeat split. Qed.

Example normalizePrivateKey_plain :
  normalizePrivateKey "  ABCDEF0123456789abcdef0123456789abcdef0123456789abcdef0123456789 "
  = Ok "0xABCDEF0123456789abcdef0123456789abcdef0123456789abcdef0123456789".
Proof. reflexivity. Qed.

Example validateAddresses_mixed_case :
  validateAddresses [" 0XABCDEF0123456789abcdef0123456789ABCDEF01"]
  = Ok ["0xabcdef0123456789abcdef0123456789abcdef01"].
Proof. reflexivity. Qed.

(** ** Facts about the string primitives *)

Section StringFacts.

Lemma trimStart_head s : headNotSpace (trimStart s) = true.
Proof.
  induction s as [|c s IH]; simpl; [reflexivity|].
  destruct (isWhiteSpace c) eqn:E; [exact IH|]. simpl. now rewrite E.
Qed.

Lemma trimStart_fixed s : headNotSpace s = true -> trimStart s = s.
Proof.
  destruct s as [|c s]; simpl; [reflexivity|].
  now destruct (isWhiteSpace c).
Qed.

Lemma trimEnd_head s : headNotSpace s = true -> headNotSpace (trimEnd s) = true.
Proof.
  destruct s as [|c s]; simpl; [reflexivity|].
  destruct (isWhiteSpace c) eqn:E; [discriminate|]. intros _.
  destruct (trimEnd s); simpl; now rewrite E.
Qed.

Lemma trimEnd_idem s : trimEnd (trimEnd s) = trimEnd s.
Proof.
  induction s as [|c s IH]; simpl; [reflexivity|].
  destruct (trimEnd s) as [|d t] eqn:E.
  - destruct (isWhiteSpace c) eqn:Ec; simpl; [reflexivity|now rewrite Ec].
  - change (trimEnd (String c (String d t))) with
      (match trimEnd (String d t) with
       | EmptyString => if isWhiteSpace c then EmptyString else String c EmptyString
       | u => String c u
       end).
    now rewrite IH.
Qed.

Lemma trim_idem s : trim (trim s) = trim s.
Proof.
  unfold trim.
  rewrite (trimStart_fixed (trimEnd (trimStart s))).
  - apply trimEnd_idem.
  - apply trimEnd_head, trimStart_head.
Qed.

Lemma trimEnd_noWhiteSpace s : noWhiteSpace s = true -> trimEnd s = s.
Proof.
  induction s as [|c s IH]; simpl; [reflexivity|].
  intros [Hc Hs]%andb_prop. rewrite (IH Hs).
  destruct s; [|reflexivity].
  now destruct (isWhiteSpace c).
Qed.

Lemma trim_noWhiteSpace s : noWhiteSpace s = true -> trim s = s.
Proof.
  intros H. unfold trim. rewrite trimStart_fixed.
  - now apply trimEnd_noWhiteSpace.
  - destruct s; [reflexivity|]. simpl in *. now apply andb_prop in H.
Qed.

Lemma isHexDigit_notSpace c : isHexDigit c = true -> isWhiteSpace c = false.
Proof.
  destruct c as [[] [] [] [] [] [] [] []]; vm_compute; congruence.
Qed.

Lemma allHex_noWhiteSpace s : allHex s = true -> noWhiteSpace s = true.
Proof.
  induction s as [|c s IH]; simpl; [reflexivity|].
  intros [Hc Hs]%andb_prop. now rewrite (isHexDigit_notSpace c Hc), IH.
Qed.

Lemma isHexDigit_lower c : isHexDigit c = true -> isHexDigit (lowerChar c) = true.
Proof.
  destruct c as [[] [] [] [] [] [] [] []]; vm_compute; congruence.
Qed.

Lemma allHex_lower s : allHex s = true -> allHex (toLowerCase s) = true.
Proof.
  induction s as [|c s IH]; simpl; [reflexivity|].
  intros [Hc Hs]%andb_prop. now rewrite (isHexDigit_lower c Hc), IH.
Qed.

Lemma length_toLowerCase s : String.length (toLowerCase s) = String.length s.
Proof. induction s; simpl; congruence. Qed.

End StringFacts.

Lemma re_hex_exactly_spec n s :
  re_hex_exactly n s = true <-> String.length s = n /\ allHex s = true.
Proof.
  unfold re_hex_exactly. rewrite andb_true_iff, Nat.eqb_eq. reflexivity.
Qed.

Lemma normalizePrivateKey_normal_form h :
  String.length h = 64%nat -> allHex h = true ->
  isValidPrivateKey ("0x" +:+ h) = true /\ normalizePrivateKey ("0x" +:+ h) = Ok ("0x" +:+ h).
Proof.
  intros Hl Hh.
  assert (Ht : trim ("0x" +:+ h) = "0x" +:+ h).
  { apply trim_noWhiteSpace.
    change (noWhiteSpace ("0x" +:+ h)) with
      (negb (isWhiteSpace "0") && (negb (isWhiteSpace "x") && noWhiteSpace h)).
    rewrite (allHex_noWhiteSpace h Hh). reflexivity. }
  assert (Hv : isValidPrivateKey ("0x" +:+ h) = true).
  { unfold isValidPrivateKey. rewrite Ht.
    change (re_hex_exactly 64 h = true).
    apply re_hex_exactly_spec. now split. }
  split; [exact Hv|].
  unfold normalizePrivateKey. rewrite Ht, Hv.
  change (String.length ("0x" +:+ h)) with (S (S (String.length h))).
  rewrite Hl. reflexivity.
Qed.

Lemma normalizePrivateKey_Ok_inv k r :
  normalizePrivateKey k = Ok r ->
  exists h, r = "0x" +:+ h /\ re_hex_exactly 64 h = true.
Proof.
  unfold normalizePrivateKey.
  destruct (String.eqb k ""); [discriminate|].
  destruct (startsWith "suiprivkey" (trim k)); [discriminate|].
  destruct (_ && _ && _); [discriminate|].
  destruct (isValidPrivateKey (trim k)) eqn:Hv; [|discriminate].
  simpl. intros [= <-].
  unfold isValidPrivateKey in Hv.
  destruct (String.eqb (trim k) ""); [discriminate|].
  rewrite trim_idem in Hv. eauto.
Qed.

(** C8: whenever [normalizePrivateKey k] returns [r], [r] is ["0x"] followed
    by exactly 64 hexadecimal characters, [isValidPrivateKey r] holds, and
    normalising [r] again returns [r] itself. *)
Theorem normalizePrivateKey_idempotent (k r : string) :
  normalizePrivateKey k = Ok r ->
  isNormalPrivateKey r /\ isValidPrivateKey r = true /\ normalizePrivateKey r = Ok r.
Proof.
  intros (h & -> & [Hl Hh]%re_hex_exactly_spec)%normalizePrivateKey_Ok_inv.
  split; [now exists h|].
  now apply normalizePrivateKey_normal_form.
Qed.

Lemma normalizePrivateKey_idempotent_witness :
  let r := "0xABCDEF0123456789abcdef0123456789abcdef0123456789abcdef0123456789" in
  isNormalPrivateKey r /\ isValidPrivateKey r = true /\ normalizePrivateKey r = Ok r.
Proof.
  exact (normalizePrivateKey_idempotent
           "  ABCDEF0123456789abcdef0123456789abcdef0123456789abcdef0123456789 " _ eq_refl).
Defined.

(** ** Facts about binary64 comparisons *)

Section FloatFacts.

Lemma SFcompare_antisym (x y : spec_float) :
  SFcompare y x = option_map CompOpp (SFcompare x y).
Proof.
  destruct x as [sx|sx| |sx mx ex], y as [sy|sy| |sy my ey]; simpl;
    try reflexivity; try (destruct sx; reflexivity); try (destruct sy; reflexivity);
    try (destruct sx, sy; reflexivity).
  destruct sx, sy; simpl; try reflexivity; f_equal;
    rewrite (Z.compare_antisym ex ey); destruct (ex ?= ey)%Z; simpl; try reflexivity;
    pose proof (Pos.compare_cont_antisym mx my Eq) as H; simpl in H; rewrite <- H;
    now destruct (Pos.compare_cont Eq mx my).
Qed.

Lemma SFcompare_refl (x : spec_float) :
  SFcompare x x = match x with S754_nan => None | _ => Some Eq end.
Proof.
  destruct x as [s|s| |s m e]; simpl; try reflexivity; try (destruct s; reflexivity).
  destruct s; rewrite Z.compare_refl, Pos.compare_cont_refl; reflexivity.
Qed.

Lemma is_nan_Prim2SF (x : float) :
  is_nan x = match Prim2SF x with S754_nan => true | _ => false end.
Proof.
  unfold is_nan. rewrite FloatAxioms.eqb_spec. unfold SFeqb. rewrite SFcompare_refl.
  now destruct (Prim2SF x).
Qed.

Lemma SFcompare_not_nan (x y : float) :
  is_nan x = false -> is_nan y = false ->
  exists c, SFcompare (Prim2SF x) (Prim2SF y) = Some c.
Proof.
  rewrite !is_nan_Prim2SF.
  destruct (Prim2SF x) as [sx|sx| |sx mx ex], (Prim2SF y) as [sy|sy| |sy my ey];
    simpl; try discriminate; eauto.
Qed.

(** [x < y] fails exactly when [y <= x], unless one of the two is [NaN]. *)
Lemma ltb_negb_leb (x y : float) :
  is_nan x = false -> is_nan y = false -> (x <? y)%float = negb (y <=? x)%float.
Proof.
  intros Hx Hy. destruct (SFcompare_not_nan x y Hx Hy) as [c Hc].
  rewrite FloatAxioms.ltb_spec, FloatAxioms.leb_spec. unfold SFltb, SFleb.
  rewrite (SFcompare_antisym (Prim2SF x) (Prim2SF y)), Hc. now destruct c.
Qed.

Lemma leb_not_nan (x y : float) :
  (x <=? y)%float = true -> is_nan x = false /\ is_nan y = false.
Proof.
  rewrite FloatAxioms.leb_spec, !is_nan_Prim2SF. unfold SFleb.
  destruct (Prim2SF x) as [sx|sx| |sx mx ex], (Prim2SF y) as [sy|sy| |sy my ey];
    simpl; try discriminate; auto.
Qed.

End FloatFacts.

(** ** validateAddresses *)

Section ValidateAddresses.

Lemma re_address_i_lower (t : string) :
  re_address_i t = true -> isAddressFormat (toLowerCase t).
Proof.
  destruct t as [|c0 [|c1 h]]; simpl; try discriminate.
  intros [[H0 H1]%andb_prop [Hl Hh]%re_hex_exactly_spec]%andb_prop.
  apply Ascii.eqb_eq in H0 as ->.
  exists (toLowerCase h). split; [|split].
  - apply orb_prop in H1 as [->%Ascii.eqb_eq | ->%Ascii.eqb_eq]; reflexivity.
  - now rewrite length_toLowerCase.
  - now apply allHex_lower.
Qed.

Lemma normalizeAddress_Ok_inv (a o : string) :
  normalizeAddress a = Ok o -> o = toLowerCase (trim a) /\ isAddressFormat o.
Proof.
  unfold normalizeAddress, isValidEthereumAddress.
  destruct (String.eqb a ""); [discriminate|].
  destruct (String.eqb (trim a) ""); [discriminate|].
  rewrite trim_idem.
  destruct (re_address_i (trim a)) eqn:E; [|discriminate].
  simpl. intros [= <-]. split; [reflexivity|now apply re_address_i_lower].
Qed.

Lemma addressRejected_false (a : string) :
  addressRejected a = false -> normalizeAddress a = Ok (toLowerCase (trim a)).
Proof.
  unfold addressRejected. destruct (normalizeAddress a) as [o|e] eqn:E; [|discriminate].
  intros _. now destruct (normalizeAddress_Ok_inv a o E) as [-> _].
Qed.

(** The loop of [validateAddresses]: [errors] never shrinks, grows when an
    entry is rejected, and when none is, [normalized] gains the normal form
    of every entry, in order. *)
Lemma forEachAddress_spec (addresses : list string) :
  forall normalized errors index,
    let '(normalized', errors') := forEachAddress (normalized, errors) index addresses in
    (length errors <= length errors')%nat
    /\ (existsb addressRejected addresses = true -> (length errors < length errors')%nat)
    /\ (existsb addressRejected addresses = false ->
        errors' = errors
        /\ normalized' = (normalized ++ List.map (fun a => toLowerCase (trim a)) addresses)%list).
Proof.
  induction addresses as [|a rest IH]; intros normalized errors index; simpl.
  - repeat split; [lia|discriminate|now rewrite app_nil_r].
  - unfold addressRejected at 1 3.
    destruct (normalizeAddress a) as [o|e] eqn:E.
    + specialize (IH (normalized ++ [o])%list errors (S index)).
      destruct (forEachAddress _ _ rest) as [n' e'].
      destruct IH as (Hle & Hex & Hall). simpl. repeat split; auto.
      * now apply Hall.
      * destruct (Hall H) as [_ ->]. rewrite <- app_assoc. simpl.
        now destruct (normalizeAddress_Ok_inv a o E) as [-> _].
    + specialize (IH normalized
        (errors ++ ["Address[" +:+ ofNat index +:+ "]: " +:+ message e])%list (S index)).
      destruct (forEachAddress _ _ rest) as [n' e'].
      destruct IH as (Hle & _ & _). rewrite length_app in Hle. simpl in *.
      repeat split; try lia; discriminate.
Qed.

(** C9: [validateAddresses] throws (for field TARGET_ADDRESSES) when the list
    is empty or some entry is rejected by [normalizeAddress]; otherwise it
    returns a list of the same length whose i-th element is the trimmed,
    lower-cased i-th input and has the address format. *)
Theorem validateAddresses_all_or_nothing (addresses : list string) :
  (addresses = [] \/ existsb addressRejected addresses = true ->
   exists msg, validateAddresses addresses = Throw (mkValidationError msg "TARGET_ADDRESSES"))
  /\ (addresses <> [] -> existsb addressRejected addresses = false ->
      exists out,
        validateAddresses addresses = Ok out
        /\ length out = length addresses
        /\ (forall i a, addresses !! i = Some a -> out !! i = Some (toLowerCase (trim a)))
        /\ Forall isAddressFormat out).
Proof.
  pose proof (forEachAddress_spec addresses [] [] 0%nat) as Hloop.
  split.
  - intros [-> | Hex]; [eexists; reflexivity|].
    destruct addresses as [|a rest]; [discriminate|].
    unfold validateAddresses.
    destruct (forEachAddress _ _ (a :: rest)) as [n' e'].
    destruct Hloop as (_ & Hlt & _). specialize (Hlt Hex). simpl in Hlt.
    destruct (Nat.ltb_spec 0 (length e')); [eexists; reflexivity|lia].
  - intros Hne Hall. destruct addresses as [|a rest]; [congruence|].
    unfold validateAddresses.
    destruct (forEachAddress _ _ (a :: rest)) as [n' e'].
    destruct Hloop as (_ & _ & Hok). destruct (Hok Hall) as [-> ->].
    exists (List.map (fun a => toLowerCase (trim a)) (a :: rest)).
    split; [reflexivity|]. split; [apply length_map|]. split.
    + intros i x Hi. change (List.map ?f ?l) with (f <$> l).
      now rewrite list_lookup_fmap, Hi.
    + apply Forall_forall. intros o Ho. apply list_elem_of_In, in_map_iff in Ho.
      destruct Ho as [x [<- Hx]].
      assert (Hx' : addressRejected x = false).
      { destruct (addressRejected x) eqn:Ex; [|reflexivity].
        rewrite <- Hall. symmetry. apply existsb_exists. eauto. }
      apply addressRejected_false in Hx'.
      now destruct (normalizeAddress_Ok_inv x _ Hx').
Qed.

End ValidateAddresses.

(** ** loadEnv *)

Section LoadEnv.
Context `{Runtime}.

Lemma bind_Ok_inv {A B : Type} (m : result A) (f : A -> result B) (b : B) :
  m ≫= f = Ok b -> exists a, m = Ok a /\ f a = Ok b.
Proof. destruct m as [a|e]; [eauto|discriminate]. Qed.

Lemma required_Ok_inv (name : string) (v : option string) (s : string) :
  required name v = Ok s -> v = Some s /\ s <> "".
Proof.
  unfold required, Boolean. destruct v as [s'|]; [|discriminate].
  destruct (String.eqb_spec s' ""); simpl; [discriminate|].
  now intros [= <-].
Qed.

(** Once the first four validations have succeeded, the rest of the [try]
    block is the three numeric checks and the construction of the record. *)
Lemma loadEnv_try_numeric (env : ProcessEnv) tas pub pw raw pk rpc :
  validateAddresses (parseList (env !! "TARGET_ADDRESSES")) = Ok tas ->
  required "PUBLIC_KEY" (env !! "PUBLIC_KEY") = Ok pub -> normalizeAddress pub = Ok pw ->
  required "PRIVATE_KEY" (env !! "PRIVATE_KEY") = Ok raw -> normalizePrivateKey raw = Ok pk ->
  checkRpcUrl env = Ok rpc ->
  loadEnv_try env =
    (fi ← checkFetchInterval env;
     fr ← checkFrontrunSizeMultiplier env;
     gas ← checkGasPriceMultiplier env;
     Ok (builtEnv env tas pw pk rpc fi fr gas)).
Proof.
  intros E1 E2 E3 E4 E5 E6. unfold loadEnv_try.
  rewrite E1. cbn [mbind result_bind]. rewrite E2. cbn [mbind result_bind].
  rewrite E3. cbn [mbind result_bind]. rewrite E4. cbn [mbind result_bind].
  rewrite E5. cbn [mbind result_bind]. rewrite E6. reflexivity.
Qed.

Lemma loadEnv_try_Ok_inv (env : ProcessEnv) (r : RuntimeEnv) :
  loadEnv_try env = Ok r ->
  exists tas pw pk rpc fi fr gas,
    identityChecksPass env
    /\ checkFetchInterval env = Ok fi
    /\ checkFrontrunSizeMultiplier env = Ok fr
    /\ checkGasPriceMultiplier env = Ok gas
    /\ r = builtEnv env tas pw pk rpc fi fr gas.
Proof.
  unfold loadEnv_try. intros Hr.
  apply bind_Ok_inv in Hr as (tas & E1 & Hr).
  apply bind_Ok_inv in Hr as (pub & E2 & Hr).
  apply bind_Ok_inv in Hr as (pw & E3 & Hr).
  apply bind_Ok_inv in Hr as (raw & E4 & Hr).
  apply bind_Ok_inv in Hr as (pk & E5 & Hr).
  apply bind_Ok_inv in Hr as (rpc & E6 & Hr).
  apply bind_Ok_inv in Hr as (fi & E7 & Hr).
  apply bind_Ok_inv in Hr as (fr & E8 & Hr).
  apply bind_Ok_inv in Hr as (gas & E9 & Hr).
  injection Hr as <-.
  exists tas, pw, pk, rpc, fi, fr, gas. unfold identityChecksPass.
  repeat split; eauto.
Qed.

Lemma loadEnv_Returned_inv (env : ProcessEnv) (r : RuntimeEnv) :
  loadEnv env = Returned r -> loadEnv_try env = Ok r.
Proof. unfold loadEnv. destruct (loadEnv_try env); congruence. Qed.

Lemma loadEnv_Exited (env : ProcessEnv) (err : ValidationError) :
  loadEnv_try env = Throw err -> loadEnv env = Exited 1 err.
Proof. unfold loadEnv. now intros ->. Qed.

(** [loadEnv] ends in exactly one of its two ways. *)
Lemma loadEnv_total (env : ProcessEnv) :
  (exists r, loadEnv env = Returned r) \/ (exists err, loadEnv env = Exited 1 err).
Proof. unfold loadEnv. destruct (loadEnv_try env); eauto. Qed.

End LoadEnv.

Example loadEnv_sampleEnv :
  exists r, @loadEnv sampleRuntime sampleEnv = Returned r
    /\ targetAddresses r = ["0x1111111111111111111111111111111111111111";
                            "0xabcdef2222222222222222222222222222222222"]
    /\ fetchIntervalSeconds r = 1%float
    /\ frontrunSizeMultiplier r = Some 0.5%float
    /\ gasPriceMultiplier r = Some 1.2%float.
Proof. eexists. vm_compute. repeat split. Qed.

(** ** The numeric checks of loadEnv *)

Section NumericChecks.
Context `{Runtime}.

Lemma inUnitRange_spec (x : float) :
  inUnitRange x = negb (isNaN x || (x <? 0)%float || (1 <? x)%float).
Proof.
  unfold inUnitRange, isNaN. destruct (is_nan x) eqn:Hn; simpl.
  - destruct (0 <=? x)%float eqn:E; [|reflexivity].
    apply leb_not_nan in E as [_ E]. congruence.
  - rewrite (ltb_negb_leb x 0 Hn eq_refl), (ltb_negb_leb 1 x eq_refl Hn).
    now destruct (0 <=? x)%float, (x <=? 1)%float.
Qed.

Lemma atLeastOne_spec (x : float) :
  atLeastOne x = negb (isNaN x || (x <? 1.0)%float).
Proof.
  unfold atLeastOne, isNaN. destruct (is_nan x) eqn:Hn; simpl.
  - destruct (1.0 <=? x)%float eqn:E; [|reflexivity].
    apply leb_not_nan in E as [_ E]. congruence.
  - rewrite (ltb_negb_leb x 1.0 Hn eq_refl). now destruct (1.0 <=? x)%float.
Qed.

Lemma atLeastFloor_spec (x : float) :
  atLeastFloor x = negb (isNaN x || (x <? 0.1)%float).
Proof.
  unfold atLeastFloor, isNaN. destruct (is_nan x) eqn:Hn; simpl.
  - destruct (0.1 <=? x)%float eqn:E; [|reflexivity].
    apply leb_not_nan in E as [_ E]. congruence.
  - rewrite (ltb_negb_leb x 0.1 Hn eq_refl). now destruct (0.1 <=? x)%float.
Qed.

Lemma checkFetchInterval_spec (env : ProcessEnv) :
  let x := numberOr (env !! "FETCH_INTERVAL") 1 in
  if atLeastFloor x then checkFetchInterval env = Ok x
  else exists msg, checkFetchInterval env = Throw (mkValidationError msg "FETCH_INTERVAL").
Proof.
  cbv zeta. rewrite atLeastFloor_spec. unfold checkFetchInterval.
  destruct (_ || _); simpl; eauto.
Qed.

Lemma checkFrontrunSizeMultiplier_spec (env : ProcessEnv) :
  let x := numberOr (env !! "FRONTRUN_SIZE_MULTIPLIER") 0.5 in
  if inUnitRange x then checkFrontrunSizeMultiplier env = Ok x
  else exists msg,
    checkFrontrunSizeMultiplier env = Throw (mkValidationError msg "FRONTRUN_SIZE_MULTIPLIER").
Proof.
  cbv zeta. rewrite inUnitRange_spec. unfold checkFrontrunSizeMultiplier.
  destruct (_ || _ || _); simpl; eauto.
Qed.

Lemma checkGasPriceMultiplier_spec (env : ProcessEnv) :
  let x := numberOr (env !! "GAS_PRICE_MULTIPLIER") 1.2 in
  if atLeastOne x then checkGasPriceMultiplier env = Ok x
  else exists msg,
    checkGasPriceMultiplier env = Throw (mkValidationError msg "GAS_PRICE_MULTIPLIER").
Proof.
  cbv zeta. rewrite atLeastOne_spec. unfold checkGasPriceMultiplier.
  destruct (_ || _); simpl; eauto.
Qed.

(** C6: a FETCH_INTERVAL whose number is [NaN] or below 0.1 makes the check
    of lines 77-84 throw a ValidationError for field FETCH_INTERVAL and
    [loadEnv] exit; that error is the one reported when the validations
    before it succeed; and every configuration [loadEnv] returns has
    [fetchIntervalSeconds >= 0.1]. *)
Theorem fetchInterval_floor_enforced :
  (forall (env : ProcessEnv) (v : string),
      env !! "FETCH_INTERVAL" = Some v ->
      isNaN (Number v) = true \/ (Number v <? 0.1)%float = true ->
      exists msg,
        checkFetchInterval env = Throw (mkValidationError msg "FETCH_INTERVAL")
        /\ exists err, loadEnv env = Exited 1 err
             /\ (identityChecksPass env -> err = mkValidationError msg "FETCH_INTERVAL"))
  /\ (forall (env : ProcessEnv) (r : RuntimeEnv),
        loadEnv env = Returned r -> (0.1 <=? fetchIntervalSeconds r)%float = true).
Proof.
  split.
  - intros env v Hv Hbad.
    pose proof (checkFetchInterval_spec env) as Hc. cbv zeta in Hc.
    rewrite Hv in Hc. simpl in Hc. rewrite atLeastFloor_spec in Hc.
    assert (Hb : isNaN (Number v) || (Number v <? 0.1)%float = true)
      by (destruct Hbad as [-> | ->]; [reflexivity|apply orb_true_r]).
    rewrite Hb in Hc. simpl in Hc. destruct Hc as [msg Hc]. exists msg.
    split; [exact Hc|].
    destruct (loadEnv_total env) as [[r Hr] | [err He]].
    + apply loadEnv_Returned_inv, loadEnv_try_Ok_inv in Hr
        as (? & ? & ? & ? & fi & ? & ? & _ & Hfi & _). congruence.
    + exists err. split; [exact He|].
      intros ((tas & E1) & (pub & pw & E2 & E3) & (raw & pk & E4 & E5) & (rpc & E6)).
      unfold loadEnv in He.
      rewrite (loadEnv_try_numeric env _ _ _ _ _ _ E1 E2 E3 E4 E5 E6), Hc in He.
      simpl in He. congruence.
  - intros env r Hr.
    apply loadEnv_Returned_inv, loadEnv_try_Ok_inv in Hr
      as (tas & pw & pk & rpc & fi & fr & gas & _ & Hfi & _ & _ & ->).
    simpl. pose proof (checkFetchInterval_spec env) as Hc. cbv zeta in Hc.
    fold (atLeastFloor fi).
    destruct (atLeastFloor _) eqn:E.
    + rewrite Hc in Hfi. injection Hfi as <-. exact E.
    + destruct Hc as [msg Hc]. congruence.
Qed.

End NumericChecks.

Section MultiplierChecks.
Context `{Runtime}.

(** C4: for a FRONTRUN_SIZE_MULTIPLIER value [v], the check of lines 86-93
    accepts [Number v] exactly when it is a number with [0 <= Number v <= 1],
    and then it is the [frontrunSizeMultiplier] of the configuration that
    [loadEnv] returns when the other validations succeed; a value below 0,
    above 1 or not numeric throws a ValidationError for field
    FRONTRUN_SIZE_MULTIPLIER, which [loadEnv] reports when the validations
    before it succeed.  The boundary 0 is accepted. *)
Theorem frontrunSizeMultiplier_validated (env : ProcessEnv) (v : string) :
  env !! "FRONTRUN_SIZE_MULTIPLIER" = Some v ->
  let x := Number v in
  (inUnitRange x = false <->
   isNaN x = true \/ (x <? 0)%float = true \/ (1 <? x)%float = true)
  /\ (forall r, loadEnv env = Returned r ->
        inUnitRange x = true /\ frontrunSizeMultiplier r = Some x)
  /\ (inUnitRange x = true ->
      checkFrontrunSizeMultiplier env = Ok x
      /\ (identityChecksPass env ->
          (exists fi, checkFetchInterval env = Ok fi) ->
          (exists gas, checkGasPriceMultiplier env = Ok gas) ->
          exists r, loadEnv env = Returned r /\ frontrunSizeMultiplier r = Some x))
  /\ (inUnitRange x = false ->
      exists msg,
        checkFrontrunSizeMultiplier env
        = Throw (mkValidationError msg "FRONTRUN_SIZE_MULTIPLIER")
        /\ exists err, loadEnv env = Exited 1 err
             /\ (identityChecksPass env ->
                 (exists fi, checkFetchInterval env = Ok fi) ->
                 err = mkValidationError msg "FRONTRUN_SIZE_MULTIPLIER"))
  /\ inUnitRange (Number "0") = true.
Proof.
  intros Hv x.
  pose proof (checkFrontrunSizeMultiplier_spec env) as Hc. cbv zeta in Hc.
  rewrite Hv in Hc. simpl in Hc. fold x in Hc.
  split; [|split; [|split; [|split]]].
  - rewrite inUnitRange_spec, negb_false_iff, !orb_true_iff. tauto.
  - intros r Hr.
    apply loadEnv_Returned_inv, loadEnv_try_Ok_inv in Hr
      as (tas & pw & pk & rpc & fi & fr & gas & _ & _ & Hfr & _ & ->).
    simpl. destruct (inUnitRange x).
    + split; [reflexivity|congruence].
    + destruct Hc as [msg Hc]. congruence.
  - intros Hx. rewrite Hx in Hc. split; [exact Hc|].
    intros ((tas & E1) & (pub & pw & E2 & E3) & (raw & pk & E4 & E5) & (rpc & E6))
      [fi E7] [gas E9].
    exists (builtEnv env tas pw pk rpc fi x gas). split; [|reflexivity].
    unfold loadEnv.
    rewrite (loadEnv_try_numeric env _ _ _ _ _ _ E1 E2 E3 E4 E5 E6), E7, Hc, E9.
    reflexivity.
  - intros Hx. rewrite Hx in Hc. destruct Hc as [msg Hc]. exists msg.
    split; [exact Hc|].
    destruct (loadEnv_total env) as [[r Hr] | [err He]].
    + apply loadEnv_Returned_inv, loadEnv_try_Ok_inv in Hr
        as (? & ? & ? & ? & ? & fr & ? & _ & _ & Hfr & _). congruence.
    + exists err. split; [exact He|].
      intros ((tas & E1) & (pub & pw & E2 & E3) & (raw & pk & E4 & E5) & (rpc & E6))
        [fi E7].
      unfold loadEnv in He.
      rewrite (loadEnv_try_numeric env _ _ _ _ _ _ E1 E2 E3 E4 E5 E6), E7, Hc in He.
      simpl in He. congruence.
  - vm_compute. reflexivity.
Qed.

(** C5: for a GAS_PRICE_MULTIPLIER value [v], the check of lines 95-102
    accepts [Number v] exactly when it is a number with [Number v >= 1.0],
    and then it is the [gasPriceMultiplier] of the configuration that
    [loadEnv] returns when the validations before it succeed; a value below
    1.0 or not numeric throws a ValidationError for field
    GAS_PRICE_MULTIPLIER, which [loadEnv] reports in that case. *)
Theorem gasPriceMultiplier_validated (env : ProcessEnv) (v : string) :
  env !! "GAS_PRICE_MULTIPLIER" = Some v ->
  let x := Number v in
  (atLeastOne x = false <-> isNaN x = true \/ (x <? 1.0)%float = true)
  /\ (forall r, loadEnv env = Returned r ->
        atLeastOne x = true /\ gasPriceMultiplier r = Some x)
  /\ (atLeastOne x = true ->
      checkGasPriceMultiplier env = Ok x
      /\ (identityChecksPass env ->
          (exists fi, checkFetchInterval env = Ok fi) ->
          (exists fr, checkFrontrunSizeMultiplier env = Ok fr) ->
          exists r, loadEnv env = Returned r /\ gasPriceMultiplier r = Some x))
  /\ (atLeastOne x = false ->
      exists msg,
        checkGasPriceMultiplier env = Throw (mkValidationError msg "GAS_PRICE_MULTIPLIER")
        /\ exists err, loadEnv env = Exited 1 err
             /\ (identityChecksPass env ->
                 (exists fi, checkFetchInterval env = Ok fi) ->
                 (exists fr, checkFrontrunSizeMultiplier env = Ok fr) ->
                 err = mkValidationError msg "GAS_PRICE_MULTIPLIER")).
Proof.
  intros Hv x.
  pose proof (checkGasPriceMultiplier_spec env) as Hc. cbv zeta in Hc.
  rewrite Hv in Hc. simpl in Hc. fold x in Hc.
  split; [|split; [|split]].
  - rewrite atLeastOne_spec, negb_false_iff, !orb_true_iff. tauto.
  - intros r Hr.
    apply loadEnv_Returned_inv, loadEnv_try_Ok_inv in Hr
      as (tas & pw & pk & rpc & fi & fr & gas & _ & _ & _ & Hgas & ->).
    simpl. destruct (atLeastOne x).
    + split; [reflexivity|congruence].
    + destruct Hc as [msg Hc]. congruence.
  - intros Hx. rewrite Hx in Hc. split; [exact Hc|].
    intros ((tas & E1) & (pub & pw & E2 & E3) & (raw & pk & E4 & E5) & (rpc & E6))
      [fi E7] [fr E8].
    exists (builtEnv env tas pw pk rpc fi fr x). split; [|reflexivity].
    unfold loadEnv.
    rewrite (loadEnv_try_numeric env _ _ _ _ _ _ E1 E2 E3 E4 E5 E6), E7, E8, Hc.
    reflexivity.
  - intros Hx. rewrite Hx in Hc. destruct Hc as [msg Hc]. exists msg.
    split; [exact Hc|].
    destruct (loadEnv_total env) as [[r Hr] | [err He]].
    + apply loadEnv_Returned_inv, loadEnv_try_Ok_inv in Hr
        as (? & ? & ? & ? & ? & ? & gas & _ & _ & _ & Hgas & _). congruence.
    + exists err. split; [exact He|].
      intros ((tas & E1) & (pub & pw & E2 & E3) & (raw & pk & E4 & E5) & (rpc & E6))
        [fi E7] [fr E8].
      unfold loadEnv in He.
      rewrite (loadEnv_try_numeric env _ _ _ _ _ _ E1 E2 E3 E4 E5 E6), E7, E8, Hc in He.
      simpl in He. congruence.
Qed.

End MultiplierChecks.

(** ** Configuration errors end the start-up *)

Section FatalConfiguration.
Context `{Runtime}.

Lemma checkRpcUrl_Ok_inv (env : ProcessEnv) (rpc : string) :
  checkRpcUrl env = Ok rpc ->
  exists u, env !! "RPC_URL" = Some u /\ u <> "" /\ rpc = trim u
            /\ isValidRpcUrl (trim u) = true.
Proof.
  unfold checkRpcUrl. intros (u & [Hu Hne]%required_Ok_inv & Hr)%bind_Ok_inv.
  exists u. destruct (isValidRpcUrl (trim u)); simpl in Hr; [|discriminate].
  injection Hr as <-. auto.
Qed.

Lemma required_rejects (name : string) (v : option string) :
  v = None \/ v = Some "" -> rejects (required name v).
Proof. intros [-> | ->]; eexists; reflexivity. Qed.

Lemma rejects_Ok {A : Type} (a : A) : ~ rejects (Ok a).
Proof. intros [e He]. discriminate. Qed.

(** C7: when a validation of [loadEnv] fails (a required variable is missing,
    an address, the private key or the RPC URL is invalid, a validated number
    is out of range), [loadEnv] does not return a configuration: it exits
    with code 1. *)
Theorem loadEnv_configuration_errors_fatal (env : ProcessEnv) :
  ValidationFailure env ->
  (exists err, loadEnv env = Exited 1 err) /\ (forall r, loadEnv env <> Returned r).
Proof.
  intros HF.
  destruct (loadEnv_total env) as [[r Hr] | [err He]];
    [exfalso|split; [eauto|intros r; congruence]].
  apply loadEnv_Returned_inv, loadEnv_try_Ok_inv in Hr
    as (tas & pw & pk & rpc & fi & fr & gas & Hid & Hfi & Hfr & Hgas & _).
  destruct Hid as ((tas' & E1) & (pub & pw' & E2 & E3) & (raw & pk' & E4 & E5) & (rpc' & E6)).
  apply required_Ok_inv in E2 as [E2 N2]. apply required_Ok_inv in E4 as [E4 N4].
  apply checkRpcUrl_Ok_inv in E6 as (u & E6 & N6 & _ & V6).
  destruct HF as [name Hname Hmiss| Hta | a Ha Hrej | k Hk Hrej | u' Hu Hbad
                 | v Hv Hbad | v Hv Hbad | v Hv Hbad].
  - destruct Hname as [-> | [-> | ->]]; destruct Hmiss; congruence.
  - rewrite E1 in Hta. now apply rejects_Ok in Hta.
  - assert (a = pub) as -> by congruence. rewrite E3 in Hrej. now apply rejects_Ok in Hrej.
  - assert (k = raw) as -> by congruence. rewrite E5 in Hrej. now apply rejects_Ok in Hrej.
  - assert (u' = u) as -> by congruence. congruence.
  - pose proof (checkFetchInterval_spec env) as Hc. cbv zeta in Hc.
    rewrite Hv in Hc. simpl in Hc. rewrite atLeastFloor_spec in Hc.
    destruct Hbad as [Hb | Hb]; rewrite Hb, ?orb_true_r in Hc; simpl in Hc;
      destruct Hc; congruence.
  - pose proof (checkFrontrunSizeMultiplier_spec env) as Hc. cbv zeta in Hc.
    rewrite Hv in Hc. simpl in Hc. rewrite inUnitRange_spec in Hc.
    destruct Hbad as [Hb | [Hb | Hb]]; rewrite Hb, ?orb_true_r in Hc; simpl in Hc;
      destruct Hc; congruence.
  - pose proof (checkGasPriceMultiplier_spec env) as Hc. cbv zeta in Hc.
    rewrite Hv in Hc. simpl in Hc. rewrite atLeastOne_spec in Hc.
    destruct Hbad as [Hb | Hb]; rewrite Hb, ?orb_true_r in Hc; simpl in Hc;
      destruct Hc; congruence.
Qed.

Lemma required_Throw_inv (name : string) (v : option string) (e : ValidationError) :
  required name v = Throw e -> v = None \/ v = Some "".
Proof.
  unfold required, Boolean. destruct v as [s|]; [|auto].
  destruct (String.eqb_spec s ""); simpl; [subst; auto|discriminate].
Qed.

Lemma checkFetchInterval_Throw_inv (env : ProcessEnv) (e : ValidationError) :
  checkFetchInterval env = Throw e ->
  exists v, env !! "FETCH_INTERVAL" = Some v
            /\ (isNaN (Number v) = true \/ (Number v <? 0.1)%float = true).
Proof.
  unfold checkFetchInterval. destruct (env !! "FETCH_INTERVAL") as [v|]; simpl.
  - destruct (_ || _) eqn:Hb; [|discriminate]. apply orb_true_iff in Hb. eauto.
  - discriminate.
Qed.

Lemma checkFrontrunSizeMultiplier_Throw_inv (env : ProcessEnv) (e : ValidationError) :
  checkFrontrunSizeMultiplier env = Throw e ->
  exists v, env !! "FRONTRUN_SIZE_MULTIPLIER" = Some v
            /\ (isNaN (Number v) = true \/ (Number v <? 0)%float = true
                \/ (1 <? Number v)%float = true).
Proof.
  unfold checkFrontrunSizeMultiplier.
  destruct (env !! "FRONTRUN_SIZE_MULTIPLIER") as [v|]; simpl.
  - destruct (_ || _ || _) eqn:Hb; [|discriminate].
    rewrite !orb_true_iff in Hb. exists v. tauto.
  - discriminate.
Qed.

Lemma checkGasPriceMultiplier_Throw_inv (env : ProcessEnv) (e : ValidationError) :
  checkGasPriceMultiplier env = Throw e ->
  exists v, env !! "GAS_PRICE_MULTIPLIER" = Some v
            /\ (isNaN (Number v) = true \/ (Number v <? 1.0)%float = true).
Proof.
  unfold checkGasPriceMultiplier.
  destruct (env !! "GAS_PRICE_MULTIPLIER") as [v|]; simpl.
  - destruct (_ || _) eqn:Hb; [|discriminate]. apply orb_true_iff in Hb. eauto.
  - discriminate.
Qed.

(** Conversely, [loadEnv] exits only on one of the listed failures. *)
Lemma loadEnv_Exited_failure (env : ProcessEnv) (code : Z) (err : ValidationError) :
  loadEnv env = Exited code err -> ValidationFailure env.
Proof.
  unfold loadEnv. destruct (loadEnv_try env) as [r|e] eqn:E; [discriminate|]. intros _.
  unfold loadEnv_try in E.
  destruct (validateAddresses _) as [tas|e1] eqn:E1;
    [|apply InvalidTargetAddresses; rewrite E1; eexists; reflexivity].
  cbn [mbind result_bind] in E.
  destruct (required "PUBLIC_KEY" _) as [pub|e2] eqn:E2;
    [|apply (MissingRequired env "PUBLIC_KEY"); eauto using required_Throw_inv].
  cbn [mbind result_bind] in E. apply required_Ok_inv in E2 as [E2 _].
  destruct (normalizeAddress pub) as [pw|e3] eqn:E3;
    [|apply (InvalidPublicKey env pub E2); rewrite E3; eexists; reflexivity].
  cbn [mbind result_bind] in E.
  destruct (required "PRIVATE_KEY" _) as [raw|e4] eqn:E4;
    [|apply (MissingRequired env "PRIVATE_KEY"); eauto using required_Throw_inv].
  cbn [mbind result_bind] in E. apply required_Ok_inv in E4 as [E4 _].
  destruct (normalizePrivateKey raw) as [pk|e5] eqn:E5;
    [|apply (InvalidPrivateKey env raw E4); rewrite E5; eexists; reflexivity].
  cbn [mbind result_bind] in E.
  destruct (checkRpcUrl env) as [rpc|e6] eqn:E6.
  2:{ unfold checkRpcUrl in E6.
      destruct (required "RPC_URL" _) as [u|e6'] eqn:E6';
        [|apply (MissingRequired env "RPC_URL"); eauto using required_Throw_inv].
      cbn [mbind result_bind] in E6. apply required_Ok_inv in E6' as [E6' _].
      apply (InvalidRpcUrl env u E6').
      destruct (isValidRpcUrl (trim u)); [discriminate|reflexivity]. }
  cbn [mbind result_bind] in E.
  destruct (checkFetchInterval env) as [fi|e7] eqn:E7.
  2:{ apply checkFetchInterval_Throw_inv in E7 as (v & Hv & Hbad).
      exact (FetchIntervalOutOfRange env v Hv Hbad). }
  cbn [mbind result_bind] in E.
  destruct (checkFrontrunSizeMultiplier env) as [fr|e8] eqn:E8.
  2:{ apply checkFrontrunSizeMultiplier_Throw_inv in E8 as (v & Hv & Hbad).
      exact (FrontrunSizeMultiplierOutOfRange env v Hv Hbad). }
  cbn [mbind result_bind] in E.
  destruct (checkGasPriceMultiplier env) as [gas|e9] eqn:E9; [discriminate|].
  apply checkGasPriceMultiplier_Throw_inv in E9 as (v & Hv & Hbad).
  exact (GasPriceMultiplierOutOfRange env v Hv Hbad).
Qed.

End FatalConfiguration.

(** ** The numbers loadEnv does not validate *)

(** [retryLimit] and [minTradeSizeUsd] are the numbers read from the
    environment, whatever they are. *)
Lemma loadEnv_numbers_passed_through `{Runtime} (env : ProcessEnv) (r : RuntimeEnv) :
  loadEnv env = Returned r ->
  retryLimit r = numberOr (env !! "RETRY_LIMIT") 3
  /\ minTradeSizeUsd r = Some (numberOr (env !! "MIN_TRADE_SIZE_USD") 100).
Proof.
  intros Hr. apply loadEnv_Returned_inv, loadEnv_try_Ok_inv in Hr
    as (tas & pw & pk & rpc & fi & fr & gas & _ & _ & _ & _ & ->).
  split; reflexivity.
Qed.

(** C2, the code at the failing input: with RETRY_LIMIT and
    MIN_TRADE_SIZE_USD set to text that is not a number, [loadEnv] returns a
    configuration whose [retryLimit] and [minTradeSizeUsd] are [NaN]. *)
Theorem loadEnv_returns_NaN_numbers :
  exists r,
    @loadEnv sampleRuntime unvalidatedEnv = Returned r
    /\ isNaN (retryLimit r) = true
    /\ (exists x, minTradeSizeUsd r = Some x /\ isNaN x = true).
Proof.
  eexists. split; [vm_compute; reflexivity|].
  split; [reflexivity|]. eexists. split; reflexivity.
Qed.

(** ** Witnesses *)

Lemma validateAddresses_all_or_nothing_witness :
  let addresses := [" 0XABCDEF0123456789abcdef0123456789ABCDEF01";
                    "0x1111111111111111111111111111111111111111 "] in
  exists out,
    validateAddresses addresses = Ok out
    /\ length out = length addresses
    /\ (forall i a, addresses !! i = Some a -> out !! i = Some (toLowerCase (trim a)))
    /\ Forall isAddressFormat out.
Proof.
  apply (proj2 (validateAddresses_all_or_nothing _)); [discriminate|reflexivity].
Defined.

Lemma fetchInterval_floor_enforced_witness :
  let env : ProcessEnv := <["FETCH_INTERVAL" := "0.05"]> sampleEnv in
  exists msg,
    checkFetchInterval env = Throw (mkValidationError msg "FETCH_INTERVAL")
    /\ @loadEnv sampleRuntime env = Exited 1 (mkValidationError msg "FETCH_INTERVAL").
Proof.
  assert (Hv : (<["FETCH_INTERVAL" := "0.05"]> sampleEnv : ProcessEnv) !! "FETCH_INTERVAL"
               = Some "0.05") by (vm_compute; reflexivity).
  assert (Hlow : (Number "0.05" <? 0.1)%float = true) by (vm_compute; reflexivity).
  destruct (proj1 (@fetchInterval_floor_enforced sampleRuntime) _ "0.05" Hv
              (or_intror Hlow)) as (msg & Hcheck & err & Hexit & Herr).
  exists msg. split; [exact Hcheck|].
  rewrite <- Herr; [exact Hexit|unfold identityChecksPass].
  repeat first [split | eexists]; vm_compute; reflexivity.
Defined.

Lemma frontrunSizeMultiplier_validated_witness :
  let env : ProcessEnv := <["FRONTRUN_SIZE_MULTIPLIER" := "0"]> sampleEnv in
  exists r, @loadEnv sampleRuntime env = Returned r
            /\ frontrunSizeMultiplier r = Some (Number "0").
Proof.
  pose proof (@frontrunSizeMultiplier_validated sampleRuntime
    (<["FRONTRUN_SIZE_MULTIPLIER" := "0"]> sampleEnv) "0" eq_refl) as Hthm.
  destruct Hthm as (_ & _ & Haccept & _).
  destruct (Haccept eq_refl) as [_ Hload].
  apply Hload; [unfold identityChecksPass| |]; repeat first [split | eexists]; vm_compute; reflexivity.
Defined.

Lemma gasPriceMultiplier_validated_witness :
  let env : ProcessEnv := <["GAS_PRICE_MULTIPLIER" := "0.9"]> sampleEnv in
  exists msg,
    checkGasPriceMultiplier env = Throw (mkValidationError msg "GAS_PRICE_MULTIPLIER")
    /\ @loadEnv sampleRuntime env = Exited 1 (mkValidationError msg "GAS_PRICE_MULTIPLIER").
Proof.
  pose proof (@gasPriceMultiplier_validated sampleRuntime
    (<["GAS_PRICE_MULTIPLIER" := "0.9"]> sampleEnv) "0.9" eq_refl) as Hthm.
  destruct Hthm as (_ & _ & _ & Hreject).
  destruct (Hreject eq_refl) as (msg & Hcheck & err & Hexit & Herr).
  exists msg. split; [exact Hcheck|].
  rewrite <- Herr; [exact Hexit|unfold identityChecksPass| |]; repeat first [split | eexists]; vm_compute; reflexivity.
Defined.

Lemma loadEnv_configuration_errors_fatal_witness :
  let env : ProcessEnv := <["PRIVATE_KEY" := "suiprivkey1qexample"]> sampleEnv in
  (exists err, @loadEnv sampleRuntime env = Exited 1 err)
  /\ (forall r, @loadEnv sampleRuntime env <> Returned r).
Proof.
  apply (@loadEnv_configuration_errors_fatal sampleRuntime).
  apply (InvalidPrivateKey _ "suiprivkey1qexample"); [reflexivity|].
  eexists. vm_compute. reflexivity.
Defined.

(** ** createPolymarketClient *)

Module ClobClientFactoryFacts.
Import ClobClientFactory.

Section Propagation.
Context `{Libraries}.

(** After the key has been accepted, the [try] block throws no
    [ValidationError]. *)
Lemma after_validation_no_ValidationErr (input : CreateClientInput) (k : string) t thrown :
  normalizePrivateKey (privateKey input) = Ok k ->
  createPolymarketClient input = (t, inl thrown) ->
  exists msg, thrown = PlainError ("Failed to create Polymarket client: " +:+ msg).
Proof.
  unfold createPolymarketClient. intros ->.
  cbn [mbind mret Eff_bind Eff_ret].
  destruct (connect (rpcUrl input)) as [m1|provider]; simpl.
  { intros [= _ <-]. eauto. }
  destruct (newWallet k provider) as [m2|wallet]; simpl.
  { intros [= _ <-]. eauto. }
  destruct (_ || _); simpl.
  { intros [= _ <-]. eauto. }
  destruct (newClobClient _ _ _ _) as [m3|client]; simpl.
  { intros [= _ <-]. eauto. }
  discriminate.
Qed.

(** C10: when [normalizePrivateKey] rejects the key, the call throws that
    very ValidationError, unwrapped, and makes no external call (the RPC
    connection is not attempted); every other failure is a plain Error built
    by the outer [catch]. *)
Theorem createPolymarketClient_validation_first (input : CreateClientInput) :
  (forall e, normalizePrivateKey (privateKey input) = Throw e ->
             createPolymarketClient input = ([], inl (ValidationErr e)))
  /\ (forall t thrown, createPolymarketClient input = (t, inl thrown) ->
        (exists e, normalizePrivateKey (privateKey input) = Throw e
                   /\ thrown = ValidationErr e /\ t = [])
        \/ (exists k msg, normalizePrivateKey (privateKey input) = Ok k
                          /\ thrown = PlainError ("Failed to create Polymarket client: " +:+ msg)))
  /\ (forall t r, createPolymarketClient input = (t, r) -> t <> [] ->
        exists k, normalizePrivateKey (privateKey input) = Ok k).
Proof.
  assert (Hrej : forall e, normalizePrivateKey (privateKey input) = Throw e ->
                           createPolymarketClient input = ([], inl (ValidationErr e))).
  { intros e He. unfold createPolymarketClient. rewrite He. reflexivity. }
  split; [exact Hrej|split].
  - intros t thrown Hrun.
    destruct (normalizePrivateKey (privateKey input)) as [k|e] eqn:E.
    + right. destruct (after_validation_no_ValidationErr input k t thrown E Hrun) as [msg ->].
      eauto.
    + left. rewrite (Hrej e eq_refl) in Hrun. injection Hrun as <- <-. eauto.
  - intros t r Hrun Ht.
    destruct (normalizePrivateKey (privateKey input)) as [k|e] eqn:E; [eauto|].
    rewrite (Hrej e eq_refl) in Hrun. injection Hrun as <- _. congruence.
Qed.

End Propagation.

Lemma createPolymarketClient_validation_first_witness :
  let input := {| rpcUrl := "https://polygon-rpc.com";
                  privateKey := "suiprivkey1qexample";
                  apiKey := None; apiSecret := None; apiPassphrase := None |} in
  exists e, @createPolymarketClient offlineLibraries input = ([], inl (ValidationErr e))
            /\ field e = "PRIVATE_KEY".
Proof.
  eexists. split.
  - apply (proj1 (@createPolymarketClient_validation_first offlineLibraries _)). reflexivity.
  - reflexivity.
Defined.

Example createPolymarketClient_offline :
  exists msg,
    @createPolymarketClient offlineLibraries
      {| rpcUrl := "https://polygon-rpc.com";
         privateKey := "4444444444444444444444444444444444444444444444444444444444444444";
         apiKey := None; apiSecret := None; apiPassphrase := None |}
    = ([RpcConnect "https://polygon-rpc.com"], inl (PlainError msg)).
Proof. eexists. vm_compute. reflexivity. Qed.

End ClobClientFactoryFacts.

(** ** Signal Merger *)

Module MergerFacts.
Import Core Merger MergerSpec.

Lemma filter_keeps_all {A : Type} (f : A -> bool) (l : list A) :
  (forall x, In x l -> f x = true) -> List.filter f l = l.
Proof.
  induction l as [|a l IH]; simpl; intros Hall; [reflexivity|].
  rewrite (Hall a (or_introl eq_refl)), IH; auto.
Qed.

Lemma isSeen_In (i : string) (c : list TradeSignal) :
  isSeen i c = true <-> i ∈ ids c.
Proof.
  unfold isSeen, ids. rewrite existsb_exists, list_elem_of_In, in_map_iff.
  split; intros (x & H1 & H2); exists x.
  - apply String.eqb_eq in H2. auto.
  - split; [exact H2|now apply String.eqb_eq].
Qed.

Lemma refresh_id (s x : TradeSignal) : id (refresh s x) = id x.
Proof. unfold refresh. now destruct (_ && _). Qed.

Lemma refresh_detectedAt (s x : TradeSignal) : detectedAt (refresh s x) = detectedAt x.
Proof. unfold refresh. now destruct (_ && _). Qed.

Lemma ids_refresh (s : TradeSignal) (c : list TradeSignal) :
  ids (List.map (refresh s) c) = ids c.
Proof.
  unfold ids. rewrite List.map_map. apply List.map_ext. intros x. apply refresh_id.
Qed.

Section Covered.
Variable r : Retention.
Variable stream : list TradeSignal.
Hypothesis Hcovers : covers r stream.

(** Under a covering retention nothing is evicted. *)
Lemma evict_nothing (s : TradeSignal) (c : list TradeSignal) :
  In s stream -> cacheInv stream c -> evict r (detectedAt s) c = c.
Proof.
  intros Hs (Hnd & Hids & Htimes). destruct r as [|capacity|horizon]; simpl.
  - reflexivity.
  - apply take_ge. simpl in Hcovers.
    transitivity (length (remove_dups (ids stream))); [|exact Hcovers].
    replace (length c) with (length (ids c)) by apply length_map.
    apply submseteq_length, NoDup_submseteq; [exact Hnd|].
    intros i Hi. apply elem_of_remove_dups.
    apply list_elem_of_In, in_map_iff in Hi as (x & <- & Hx). auto.
  - apply filter_keeps_all. intros x Hx.
    destruct (Htimes x Hx) as (y & Hy & <-).
    apply Z.leb_le. simpl in Hcovers. auto.
Qed.

Lemma cacheInv_refresh (s : TradeSignal) (c : list TradeSignal) :
  cacheInv stream c -> cacheInv stream (List.map (refresh s) c).
Proof.
  intros (Hnd & Hids & Htimes). unfold cacheInv. rewrite ids_refresh.
  split; [exact Hnd|]. split.
  - intros x (x0 & <- & Hx0)%in_map_iff. rewrite refresh_id. auto.
  - intros x (x0 & <- & Hx0)%in_map_iff. rewrite refresh_detectedAt. auto.
Qed.

Lemma cacheInv_record (s : TradeSignal) (c : list TradeSignal) :
  In s stream -> isSeen (id s) c = false -> cacheInv stream c -> cacheInv stream (s :: c).
Proof.
  intros Hs Hunseen (Hnd & Hids & Htimes). split; [|split].
  - simpl. apply NoDup_cons. split; [|exact Hnd].
    intros Hin%isSeen_In. congruence.
  - intros x [<- | Hx]; [|auto].
    apply list_elem_of_In, in_map_iff. eauto.
  - intros x [<- | Hx]; [eauto|auto].
Qed.

(** One step under a covering retention: a seen id is dropped, an unseen
    one is recorded and forwarded. *)
Lemma onSignal_covered (s : TradeSignal) (c : list TradeSignal) :
  In s stream -> cacheInv stream c ->
  onSignal {| retention := r; cache := c |} s =
    if isSeen (id s) c
    then ({| retention := r; cache := List.map (refresh s) c |}, None)
    else ({| retention := r; cache := s :: c |}, Some s).
Proof.
  intros Hs Hinv. unfold onSignal. simpl.
  rewrite (evict_nothing s c Hs Hinv).
  destruct (isSeen (id s) c) eqn:E; [reflexivity|].
  now rewrite (evict_nothing s (s :: c) Hs (cacheInv_record s c Hs E Hinv)).
Qed.

Lemma run_covered (l : list TradeSignal) :
  (forall s, In s l -> In s stream) ->
  forall c, cacheInv stream c ->
  forall i, countId i (snd (run {| retention := r; cache := c |} l)) =
            if isSeen i c then 0%nat else if isSeen i l then 1%nat else 0%nat.
Proof.
  induction l as [|s rest IH]; intros Hsub c Hinv i.
  - simpl. now destruct (isSeen i c).
  - assert (Hs : In s stream) by (apply Hsub; now left).
    assert (Hrest : forall x, In x rest -> In x stream) by (intros x Hx; apply Hsub; now right).
    simpl run. rewrite (onSignal_covered s c Hs Hinv).
    destruct (isSeen (id s) c) eqn:Eseen.
    + specialize (IH Hrest _ (cacheInv_refresh s c Hinv) i).
      destruct (run _ rest) as [m2 outs]. simpl in *. rewrite IH.
      assert (Hsame : isSeen i (List.map (refresh s) c) = isSeen i c).
      { apply eq_true_iff_eq. rewrite !isSeen_In, ids_refresh. reflexivity. }
      rewrite Hsame. destruct (isSeen i c) eqn:Ei; [reflexivity|].
      destruct (String.eqb_spec (id s) i) as [<- | Hne]; [congruence|reflexivity].
    + specialize (IH Hrest _ (cacheInv_record s c Hs Eseen Hinv) i).
      destruct (run _ rest) as [m2 outs]. simpl in *.
      unfold countId in *. simpl.
      destruct (String.eqb_spec (id s) i) as [<- | Hne]; simpl in *.
      * rewrite IH, Eseen. reflexivity.
      * rewrite IH. reflexivity.
Qed.

End Covered.

(** While the retention of the identity cache covers the whole stream, a
    fresh Merger forwards exactly one signal for every id of the stream. *)
Lemma forwarded_once_when_covered (r : Retention) (stream : list TradeSignal) (i : string) :
  covers r stream -> i ∈ ids stream -> countId i (forwarded r stream) = 1%nat.
Proof.
  intros Hcov Hi. unfold forwarded.
  assert (Hinv : cacheInv stream []).
  { split; [constructor|]. split; intros x []. }
  pose proof (run_covered r stream Hcov stream (fun s Hs => Hs) [] Hinv i) as Hrun.
  simpl in Hrun. apply isSeen_In in Hi. now rewrite Hi in Hrun.
Qed.

(** *** The Merger step by step *)

Lemma run_app (m : MergerState) (l1 l2 : list TradeSignal) :
  run m (l1 ++ l2) =
    let '(m1, out1) := run m l1 in
    let '(m2, out2) := run m1 l2 in
    (m2, (out1 ++ out2)%list).
Proof.
  revert m. induction l1 as [|s l1 IH]; intros m; simpl.
  - now destruct (run m l2).
  - destruct (onSignal m s) as [m1 out]. rewrite IH.
    destruct (run m1 l1) as [m2 outs]. destruct (run m2 l2) as [m3 outs'].
    now destruct out.
Qed.

Lemma retention_onSignal (m : MergerState) (s : TradeSignal) :
  retention (fst (onSignal m s)) = retention m.
Proof. unfold onSignal. now destruct (isSeen _ _). Qed.

Lemma retention_run (l : list TradeSignal) (m : MergerState) :
  retention (fst (run m l)) = retention m.
Proof.
  revert m. induction l as [|s l IH]; intros m; simpl; [reflexivity|].
  pose proof (retention_onSignal m s) as Hs.
  destruct (onSignal m s) as [m1 out]. simpl in Hs.
  specialize (IH m1). destruct (run m1 l) as [m2 outs]. simpl in *. congruence.
Qed.

Lemma retention_stateAfter (r : Retention) (pre : list TradeSignal) :
  retention (stateAfter r pre) = r.
Proof. unfold stateAfter. now rewrite retention_run. Qed.

Lemma stateAfter_snoc (r : Retention) (init : list TradeSignal) (s : TradeSignal) :
  stateAfter r (init ++ [s]) = fst (onSignal (stateAfter r init) s).
Proof.
  unfold stateAfter. rewrite run_app.
  destruct (run _ init) as [m1 out1]. simpl.
  now destruct (onSignal m1 s).
Qed.

(** A signal is forwarded exactly when its id is not held on arrival. *)
Lemma forwarded_snoc (r : Retention) (init : list TradeSignal) (s : TradeSignal) :
  forwarded r (init ++ [s]) =
    (forwarded r init ++ if held (stateAfter r init) s then [] else [s])%list.
Proof.
  unfold forwarded, held, stateAfter. rewrite run_app.
  destruct (run _ init) as [m1 out1]. simpl.
  unfold onSignal. now destruct (isSeen _ _).
Qed.

Lemma evict_incl (r : Retention) (now : Z) (c : list TradeSignal) (x : TradeSignal) :
  In x (evict r now c) -> In x c.
Proof.
  destruct r as [|capacity|horizon]; simpl; [auto| |].
  - intros Hx%list_elem_of_In. apply list_elem_of_In. now apply (subseteq_take capacity).
  - intros Hx%filter_In. tauto.
Qed.

(** The identity cache only holds ids of signals that have arrived. *)
Lemma cache_ids_arrived (r : Retention) (pre : list TradeSignal) (x : TradeSignal) :
  In x (cache (stateAfter r pre)) -> id x ∈ ids pre.
Proof.
  revert x. induction pre as [|s init IH] using rev_ind; intros x.
  - intros [].
  - rewrite stateAfter_snoc. unfold onSignal, ids.
    rewrite List.map_app. fold (ids init). rewrite elem_of_app.
    destruct (isSeen _ _); simpl.
    + intros (x0 & <- & Hx0%evict_incl)%in_map_iff. rewrite refresh_id. auto.
    + intros [<- | Hx%evict_incl]%evict_incl;
        [right; now apply list_elem_of_singleton|left; auto].
Qed.

Lemma first_arrival_not_held (r : Retention) (pre : list TradeSignal) (s : TradeSignal) :
  id s ∉ ids pre -> held (stateAfter r pre) s = false.
Proof.
  intros Hnew. unfold held. destruct (isSeen _ _) eqn:E; [exfalso|reflexivity].
  apply existsb_exists in E as (x & Hx%evict_incl & Heq%String.eqb_eq).
  apply Hnew. rewrite <- Heq. now apply (cache_ids_arrived r).
Qed.

Lemma countId_app (i : string) (l1 l2 : list TradeSignal) :
  countId i (l1 ++ l2) = (countId i l1 + countId i l2)%nat.
Proof. unfold countId. now rewrite List.filter_app, length_app. Qed.

Lemma snoc_split {A : Type} (init pre post : list A) (s x : A) :
  (init ++ [s] = pre ++ x :: post)%list ->
  (pre = init /\ x = s /\ post = [])
  \/ (exists post', post = (post' ++ [s])%list /\ init = (pre ++ x :: post')%list).
Proof.
  destruct post as [|y post' _] using rev_ind.
  - intros [-> ->]%app_inj_tail. auto.
  - intros Heq. right. exists post'.
    change (pre ++ x :: post' ++ [y])%list with (pre ++ (x :: post') ++ [y])%list in Heq.
    rewrite app_assoc in Heq. apply app_inj_tail in Heq as [-> ->]. auto.
Qed.

Lemma retainedThroughout_snoc (r : Retention) (init : list TradeSignal) (s : TradeSignal)
  (i : string) :
  retainedThroughout r (init ++ [s]) i <->
  retainedThroughout r init i
  /\ (id s = i -> i ∈ ids init -> held (stateAfter r init) s = true).
Proof.
  unfold retainedThroughout. split.
  - intros Hall. split.
    + intros pre x post -> Hx Hpre.
      apply (Hall pre x (post ++ [s])%list); [|exact Hx|exact Hpre].
      now rewrite <- app_assoc.
    + intros Hs Hin. now apply (Hall init s []).
  - intros [Hinit Hlast] pre x post Heq Hx Hpre.
    apply snoc_split in Heq as [(-> & -> & ->) | (post' & -> & ->)]; eauto.
Qed.

(** The count of forwarded signals per id, by induction on the stream from
    its end. *)
Lemma forwarded_count (r : Retention) (stream : list TradeSignal) (i : string) :
  (i ∉ ids stream -> countId i (forwarded r stream) = 0%nat)
  /\ (i ∈ ids stream ->
      (1 <= countId i (forwarded r stream))%nat
      /\ (countId i (forwarded r stream) = 1%nat <-> retainedThroughout r stream i)).
Proof.
  induction stream as [|s init [IH0 IH1]] using rev_ind.
  - split; [reflexivity|]. intros Hin. inversion Hin.
  - rewrite forwarded_snoc, countId_app, retainedThroughout_snoc.
    unfold ids. rewrite List.map_app. fold (ids init). simpl List.map.
    rewrite not_elem_of_app, elem_of_app, !list_elem_of_singleton.
    set (c := countId i (forwarded r init)) in *.
    destruct (String.eqb_spec (id s) i) as [Hs | Hs].
    + (* an occurrence of [i] *)
      destruct (decide (i ∈ ids init)) as [Hin | Hnew].
      * destruct (IH1 Hin) as [Hge Hiff].
        split; [intros [Hout _]; contradiction|]. intros _.
        destruct (held (stateAfter r init) s) eqn:Hheld.
        -- change (countId i []) with 0%nat. rewrite Nat.add_0_r.
           split; [exact Hge|]. rewrite Hiff. tauto.
        -- assert (Hone : countId i [s] = 1%nat)
             by (unfold countId; simpl; now rewrite Hs, String.eqb_refl).
           rewrite Hone. split; [lia|]. split; [lia|]. intros [_ Hlast].
           specialize (Hlast Hs Hin). discriminate.
      * split; [intros [_ Hout]; congruence|]. intros _.
        assert (Hfirst : held (stateAfter r init) s = false).
        { apply first_arrival_not_held. now rewrite Hs. }
        assert (Hone : countId i [s] = 1%nat)
          by (unfold countId; simpl; now rewrite Hs, String.eqb_refl).
        rewrite Hfirst, Hone, (IH0 Hnew). split; [lia|]. split; [|reflexivity].
        intros _. split; [|intros _ Hin; contradiction].
        intros pre x post -> Hx Hpre. exfalso. apply Hnew.
        unfold ids. rewrite List.map_app. apply elem_of_app. now left.
    + (* a signal of another id *)
      assert (Hzero : countId i (if held (stateAfter r init) s then [] else [s]) = 0%nat).
      { destruct (held _ _); [reflexivity|]. unfold countId. simpl.
        destruct (String.eqb_spec (id s) i); [contradiction|reflexivity]. }
      rewrite Hzero, Nat.add_0_r. split.
      * intros [Hout _]. auto.
      * intros [Hin | Heq]; [|congruence].
        destruct (IH1 Hin) as [Hge Hiff]. split; [exact Hge|].
        rewrite Hiff. split; [intros Hr; split; [exact Hr|intros; contradiction]|tauto].
Qed.

(** *** Bounded retention *)

Lemma tag_length (k : nat) : String.length (tag k) = S k.
Proof. induction k as [|k IH]; simpl; [reflexivity|now rewrite IH]. Qed.

#[local] Instance tag_inj : Inj (=) (=) tag.
Proof.
  intros j k Heq. apply (f_equal String.length) in Heq.
  rewrite !tag_length in Heq. lia.
Qed.

Lemma ids_distinctSignals (from n : nat) :
  ids (distinctSignals from n) = tag <$> seq from n.
Proof. unfold ids, distinctSignals. rewrite List.map_map. reflexivity. Qed.

Lemma take_cons_take {A : Type} (n : nat) (x : A) (l : list A) :
  take n (x :: take n l) = take n (x :: l).
Proof.
  destruct n as [|n]; [reflexivity|]. simpl. f_equal.
  rewrite take_take. f_equal. lia.
Qed.

(** Fed with signals of distinct ids, a cache bounded by [capacity] holds the
    [capacity] newest of them. *)
Lemma cache_of_distinct (capacity : nat) (l : list TradeSignal) :
  NoDup (ids l) -> cache (stateAfter (CountBound capacity) l) = take capacity (rev l).
Proof.
  induction l as [|s init IH] using rev_ind; intros Hnd; [simpl; now rewrite take_nil|].
  unfold ids in Hnd. rewrite List.map_app in Hnd. fold (ids init) in Hnd.
  apply NoDup_app in Hnd as (Hinit & Hfresh & _).
  assert (Hnew : id s ∉ ids init).
  { intros Hin. apply (Hfresh _ Hin). now apply list_elem_of_singleton. }
  pose proof (first_arrival_not_held (CountBound capacity) init s Hnew) as Hheld.
  unfold held in Hheld. rewrite retention_stateAfter in Hheld.
  rewrite stateAfter_snoc. unfold onSignal. rewrite retention_stateAfter, Hheld.
  simpl. rewrite (IH Hinit), take_take, Nat.min_id, take_cons_take.
  now rewrite rev_unit.
Qed.

(** A count-bounded cache has evicted the first trade of [overflowStream]
    when it is reported again. *)
Lemma countBound_not_held (capacity : nat) :
  held (stateAfter (CountBound capacity) (distinctSignals 0 (S capacity)))
    (signal (tag 0) polled 0 confirmed) = false.
Proof.
  unfold held. rewrite retention_stateAfter, cache_of_distinct.
  2:{ rewrite ids_distinctSignals. apply NoDup_fmap_2; [apply _|apply NoDup_seq]. }
  change (distinctSignals 0 (S capacity))
    with (signal (tag 0) live 0 pending :: distinctSignals 1 capacity).
  simpl rev. simpl evict.
  rewrite (take_app_length' (rev (distinctSignals 1 capacity))).
  2:{ unfold distinctSignals. now rewrite length_rev, length_map, length_seq. }
  rewrite take_ge.
  2:{ unfold distinctSignals. now rewrite length_rev, length_map, length_seq. }
  destruct (isSeen _ _) eqn:E; [exfalso|reflexivity].
  apply existsb_exists in E as (x & Hx & Heq%String.eqb_eq).
  apply in_rev, in_map_iff in Hx as (k & <- & Hk%in_seq).
  simpl in Heq. change "t" with (tag 0) in Heq. apply (inj tag) in Heq. lia.
Qed.

(** A time-bounded cache has evicted the trade of [overflowStream] when it is
    reported again. *)
Lemma timeHorizon_not_held (horizon : Z) :
  held (stateAfter (TimeHorizon horizon) [signal (tag 0) live 0 pending])
    (signal (tag 0) polled (Z.abs horizon + 1) confirmed) = false.
Proof.
  assert (Hlate : (Z.abs horizon + 1 - 0 <=? horizon)%Z = false)
    by (apply Z.leb_gt; lia).
  unfold held, stateAfter.
  cbn [run onSignal fst retention cache evict List.filter isSeen existsb detectedAt signal].
  destruct (0 - 0 <=? horizon)%Z;
    cbn [fst cache retention evict List.filter detectedAt signal];
    rewrite ?Hlate; reflexivity.
Qed.

(** Under a bounded retention the first trade of [overflowStream] is not
    forwarded exactly once. *)
Lemma bounded_retention_forwards_again (r : Retention) :
  r <> Lifetime ->
  tag 0 ∈ ids (overflowStream r)
  /\ countId (tag 0) (forwarded r (overflowStream r)) <> 1%nat.
Proof.
  intros Hr. destruct r as [|capacity|horizon]; [congruence| |].
  - assert (Hin : tag 0 ∈ ids (overflowStream (CountBound capacity))).
    { unfold overflowStream, ids. rewrite List.map_app. apply elem_of_app. right.
      now apply list_elem_of_singleton. }
    split; [exact Hin|]. intros Hone.
    apply (proj2 (proj2 (forwarded_count _ _ _) Hin)) in Hone.
    specialize (Hone (distinctSignals 0 (S capacity))
                  (signal (tag 0) polled 0 confirmed) [] eq_refl eq_refl).
    rewrite countBound_not_held in Hone. enough (false = true) by discriminate.
    apply Hone. rewrite ids_distinctSignals. simpl. left.
  - assert (Hin : tag 0 ∈ ids (overflowStream (TimeHorizon horizon))) by (simpl; left).
    split; [exact Hin|]. intros Hone.
    apply (proj2 (proj2 (forwarded_count _ _ _) Hin)) in Hone.
    specialize (Hone [signal (tag 0) live 0 pending]
                  (signal (tag 0) polled (Z.abs horizon + 1) confirmed) []
                  eq_refl eq_refl).
    rewrite timeHorizon_not_held in Hone. enough (false = true) by discriminate.
    apply Hone. simpl. left.
Qed.




Example merger_bounded_cache_run :
  ids (forwarded (CountBound 1) replayedStream) = ["0xaaa"; "0xbbb"; "0xaaa"]
  /\ ids (forwarded (CountBound 2) replayedStream) = ["0xaaa"; "0xbbb"]
  /\ ids (forwarded (TimeHorizon 1) replayedStream) = ["0xaaa"; "0xbbb"; "0xaaa"]
  /\ ids (forwarded Lifetime replayedStream) = ["0xaaa"; "0xbbb"].
Proof. vm_compute. repeat split. Qed.

Example merger_spaced_stream_run :
  ids (forwarded (CountBound 1) spacedStream) = ["0xaaa"; "0xbbb"]
  /\ ids (forwarded (TimeHorizon 5) spacedStream) = ["0xaaa"; "0xbbb"].
Proof. vm_compute. repeat split. Qed.

End MergerFacts.

(** ** Decision Engine *)

Module DecisionFacts.
Import Core DecisionEngine DecisionSpec.

(** The filters in the order the Decision Engine applies them: what a signal
    that fails one of them is skipped with, the in-flight keys unchanged. *)
Lemma decide_skips (cfg : Config) (o : Oracles) (inFlight : list Key)
  (signal : AggregatedSignal) :
  passesFilters cfg o inFlight signal = false ->
  decide cfg o inFlight signal =
    (inFlight,
     Skip (if belowThreshold cfg signal then skipped_below_threshold
           else if duplicateInFlight inFlight signal then skipped_duplicate
           else skipped_insufficient_balance)).
Proof.
  unfold passesFilters, decide.
  fold (belowThreshold cfg signal) (duplicateInFlight inFlight signal)
       (balanceSufficient cfg o signal).
  destruct (belowThreshold cfg signal); [reflexivity|].
  destruct (duplicateInFlight inFlight signal); [reflexivity|].
  destruct (balanceSufficient cfg o signal); [discriminate|reflexivity].
Qed.

(** C3: the Decision Engine emits a request exactly for the signals that pass
    the threshold, duplicate and balance filters, and the request it emits
    for such a signal has
    [requestedSizeUsd = netSizeUsd * frontrunSizeMultiplier] and
    [gasPriceHint = currentGasPrice * gasPriceMultiplier], carries the key
    and the member ids of the signal, and marks the key in flight.  A signal
    of net size 500 with multiplier 0.5 and threshold 100 is over the
    threshold with size 250, and a gas multiplier of 1.2 at a gas price of 30
    gives the hint 36. *)
Theorem decide_emits_sized_request (cfg : Config) (o : Oracles) (inFlight : list Key)
  (signal : AggregatedSignal) :
  (passesFilters cfg o inFlight signal = true ->
   decide cfg o inFlight signal =
     (aggregationKey signal :: inFlight,
      Emit {| requestKey := aggregationKey signal;
              requestedSizeUsd := (netSizeUsd signal * frontrunSizeMultiplier cfg)%float;
              gasPriceHint := (currentGasPrice o * gasPriceMultiplier cfg)%float;
              originSignalIds := memberIds signal |}))
  /\ (forall inFlight' request,
        decide cfg o inFlight signal = (inFlight', Emit request) ->
        passesFilters cfg o inFlight signal = true
        /\ requestedSizeUsd request = (netSizeUsd signal * frontrunSizeMultiplier cfg)%float
        /\ gasPriceHint request = (currentGasPrice o * gasPriceMultiplier cfg)%float)
  /\ (netSizeUsd signal = 500%float -> frontrunSizeMultiplier cfg = 0.5%float ->
      minTradeSizeUsd cfg = 100%float ->
      belowThreshold cfg signal = false
      /\ (netSizeUsd signal * frontrunSizeMultiplier cfg)%float = 250%float)
  /\ (gasPriceMultiplier cfg = 1.2%float -> currentGasPrice o = 30%float ->
      (currentGasPrice o * gasPriceMultiplier cfg)%float = 36%float).
Proof.
  assert (Hemit : passesFilters cfg o inFlight signal = true ->
    decide cfg o inFlight signal =
     (aggregationKey signal :: inFlight,
      Emit {| requestKey := aggregationKey signal;
              requestedSizeUsd := (netSizeUsd signal * frontrunSizeMultiplier cfg)%float;
              gasPriceHint := (currentGasPrice o * gasPriceMultiplier cfg)%float;
              originSignalIds := memberIds signal |})).
  { unfold passesFilters, decide.
    fold (belowThreshold cfg signal) (duplicateInFlight inFlight signal)
         (balanceSufficient cfg o signal).
    destruct (belowThreshold cfg signal); [discriminate|].
    destruct (duplicateInFlight inFlight signal); [discriminate|].
    destruct (balanceSufficient cfg o signal); [reflexivity|discriminate]. }
  split; [exact Hemit|]. split; [|split].
  - intros inFlight' request Hrun.
    destruct (passesFilters cfg o inFlight signal) eqn:Hpass.
    + rewrite (Hemit eq_refl) in Hrun. injection Hrun as _ <-. auto.
    + rewrite (decide_skips cfg o inFlight signal Hpass) in Hrun. discriminate.
  - intros Hnet Hmul Hmin. unfold belowThreshold. rewrite Hnet, Hmul, Hmin.
    split; reflexivity.
  - intros Hgas Hprice. rewrite Hgas, Hprice. reflexivity.
Qed.

Lemma decide_emits_sized_request_witness :
  exists request,
    decide sampleConfig sampleOracles [] sampleSignal
    = ([aggregationKey sampleSignal], Emit request)
    /\ requestedSizeUsd request = 250%float
    /\ gasPriceHint request = 36%float.
Proof.
  eexists. split.
  - exact (proj1 (decide_emits_sized_request sampleConfig sampleOracles [] sampleSignal)
             eq_refl).
  - split; reflexivity.
Defined.

Example decide_emits_other_signal :
  decide sampleConfig sampleOracles [aggregationKey sampleSignal] otherSignal
  = ([aggregationKey otherSignal; aggregationKey sampleSignal],
     Emit {| requestKey := aggregationKey otherSignal;
             requestedSizeUsd := 200; gasPriceHint := 36;
             originSignalIds := ["0xccc"] |}).
Proof. reflexivity. Qed.

Example decide_skips_key_in_flight :
  decide sampleConfig sampleOracles [aggregationKey sampleSignal] sampleSignal
  = ([aggregationKey sampleSignal], Skip skipped_duplicate).
Proof. reflexivity. Qed.

Example decide_zero_multiplier :
  snd (decide {| minTradeSizeUsd := 100; frontrunSizeMultiplier := 0; gasPriceMultiplier := 1.2 |}
         sampleOracles [] sampleSignal)
  = Skip skipped_below_threshold.
Proof. reflexivity. Qed.

End DecisionFacts.

(** * Further properties of the validation utilities *)

Section AddressNormalForm.

Lemma lowerChar_idem (c : ascii) : lowerChar (lowerChar c) = lowerChar c.
Proof. destruct c as [[] [] [] [] [] [] [] []]; reflexivity. Qed.

Lemma isWhiteSpace_lowerChar (c : ascii) : isWhiteSpace (lowerChar c) = isWhiteSpace c.
Proof. destruct c as [[] [] [] [] [] [] [] []]; reflexivity. Qed.

Lemma toLowerCase_idem (s : string) : toLowerCase (toLowerCase s) = toLowerCase s.
Proof. induction s as [|c s IH]; simpl; [reflexivity|]. now rewrite lowerChar_idem, IH. Qed.

Lemma trimStart_toLowerCase (s : string) :
  trimStart (toLowerCase s) = toLowerCase (trimStart s).
Proof.
  induction s as [|c s IH]; simpl; [reflexivity|].
  rewrite isWhiteSpace_lowerChar. now destruct (isWhiteSpace c).
Qed.

Lemma trimEnd_toLowerCase (s : string) :
  trimEnd (toLowerCase s) = toLowerCase (trimEnd s).
Proof.
  induction s as [|c s IH]; simpl; [reflexivity|].
  rewrite IH, isWhiteSpace_lowerChar.
  destruct (trimEnd s); simpl; [|reflexivity].
  now destruct (isWhiteSpace c).
Qed.

Lemma trim_toLowerCase (s : string) : trim (toLowerCase s) = toLowerCase (trim s).
Proof. unfold trim. now rewrite trimStart_toLowerCase, trimEnd_toLowerCase. Qed.

Lemma isAddressFormat_accepted (o : string) :
  isAddressFormat o -> o <> "" /\ trim o = o /\ re_address_i o = true.
Proof.
  intros (h & -> & Hl & Hh). split; [discriminate|]. split.
  - apply trim_noWhiteSpace.
    change (noWhiteSpace ("0x" +:+ h)) with
      (negb (isWhiteSpace "0") && (negb (isWhiteSpace "x") && noWhiteSpace h)).
    rewrite (allHex_noWhiteSpace h Hh). reflexivity.
  - change (re_address_i ("0x" +:+ h)) with (re_hex_exactly 40 h).
    apply re_hex_exactly_spec. now split.
Qed.

Lemma normalizeAddress_Ok_valid (a o : string) :
  normalizeAddress a = Ok o ->
  a <> "" /\ re_address_i (trim a) = true /\ o = normalForm a.
Proof.
  unfold normalizeAddress, isValidEthereumAddress.
  destruct (String.eqb_spec a ""); [discriminate|].
  destruct (String.eqb (trim a) ""); [discriminate|].
  rewrite trim_idem.
  destruct (re_address_i (trim a)); [|discriminate].
  simpl. intros [= <-]. auto.
Qed.

Lemma normalizeAddress_accepts (a : string) :
  a <> "" -> re_address_i (trim a) = true -> normalizeAddress a = Ok (normalForm a).
Proof.
  intros Ha Hre. unfold normalizeAddress, isValidEthereumAddress.
  destruct (String.eqb_spec a ""); [contradiction|].
  destruct (String.eqb_spec (trim a) "") as [E|_].
  { rewrite E in Hre. discriminate. }
  now rewrite trim_idem, Hre.
Qed.

Lemma normalizeAddress_fixed (o : string) :
  isAddressFormat o -> toLowerCase o = o -> normalizeAddress o = Ok o.
Proof.
  intros (Hne & Ht & Hre)%isAddressFormat_accepted Hlow.
  rewrite normalizeAddress_accepts; [|exact Hne|now rewrite Ht].
  unfold normalForm. now rewrite Ht, Hlow.
Qed.

Lemma normalizeAddress_Ok_fixed (a o : string) :
  normalizeAddress a = Ok o -> normalizeAddress o = Ok o.
Proof.
  intros Ha. destruct (normalizeAddress_Ok_inv a o Ha) as [-> Hfmt].
  apply normalizeAddress_fixed; [exact Hfmt|apply toLowerCase_idem].
Qed.

(** X1: [normalizeAddress] is idempotent, and what it returns is an address
    [isValidEthereumAddress] accepts. *)
Theorem normalizeAddress_idempotent (a o : string) :
  normalizeAddress a = Ok o ->
  normalizeAddress o = Ok o /\ isValidEthereumAddress o = true.
Proof.
  intros Ha. split; [now apply (normalizeAddress_Ok_fixed a)|].
  destruct (normalizeAddress_Ok_inv a o Ha) as [_ Hfmt].
  apply isAddressFormat_accepted in Hfmt as (Hne & Ht & Hre).
  unfold isValidEthereumAddress.
  destruct (String.eqb_spec o ""); [contradiction|]. now rewrite Ht.
Qed.

Lemma normalizeAddress_idempotent_witness :
  let o := "0xabcdef0123456789abcdef0123456789abcdef01" in
  normalizeAddress o = Ok o /\ isValidEthereumAddress o = true.
Proof.
  exact (normalizeAddress_idempotent " 0XABCDEF0123456789abcdef0123456789ABCDEF01" _ eq_refl).
Defined.

(** X2: [normalizeAddress] accepts exactly the strings that
    [isValidEthereumAddress] accepts, and every error it throws is for field
    ADDRESS. *)
Theorem normalizeAddress_accepts_iff_valid (a : string) :
  (isValidEthereumAddress a = true <-> exists o, normalizeAddress a = Ok o)
  /\ (forall err, normalizeAddress a = Throw err ->
        field err = "ADDRESS" /\ isValidEthereumAddress a = false).
Proof.
  assert (Hiff : isValidEthereumAddress a = true <-> exists o, normalizeAddress a = Ok o).
  { split.
    - unfold isValidEthereumAddress. destruct (String.eqb_spec a ""); [discriminate|].
      intros Hre. exists (normalForm a). now apply normalizeAddress_accepts.
    - intros [o (Hne & Hre & _)%normalizeAddress_Ok_valid].
      unfold isValidEthereumAddress. now destruct (String.eqb_spec a ""). }
  split; [exact Hiff|].
  intros err Herr. split.
  - revert Herr. unfold normalizeAddress.
    destruct (String.eqb a ""); [now intros [= <-]|].
    destruct (negb _); [now intros [= <-]|discriminate].
  - destruct (isValidEthereumAddress a); [|reflexivity].
    destruct (proj1 Hiff eq_refl) as [o Ho]. congruence.
Qed.

Lemma normalizeAddress_accepts_iff_valid_witness :
  (exists o, normalizeAddress " 0XABCDEF0123456789abcdef0123456789ABCDEF01" = Ok o)
  /\ (exists err,
        normalizeAddress "0x12zz" = Throw err
        /\ field err = "ADDRESS" /\ isValidEthereumAddress "0x12zz" = false).
Proof.
  split.
  - apply (proj1 (proj1 (normalizeAddress_accepts_iff_valid
                           " 0XABCDEF0123456789abcdef0123456789ABCDEF01"))).
    reflexivity.
  - eexists. split; [reflexivity|].
    exact (proj2 (normalizeAddress_accepts_iff_valid "0x12zz") _ eq_refl).
Defined.

(** X5: the spelling of an accepted address does not matter: lower-casing it
    or trimming it first gives the same normal form. *)
Theorem normalizeAddress_spelling (a o : string) :
  normalizeAddress a = Ok o ->
  normalizeAddress (toLowerCase a) = Ok o /\ normalizeAddress (trim a) = Ok o.
Proof.
  intros Ha. pose proof (normalizeAddress_Ok_inv a o Ha) as [_ Hfmt].
  apply normalizeAddress_Ok_valid in Ha as (Hne & Hre & ->).
  pose proof (isAddressFormat_accepted _ Hfmt) as (_ & _ & Hre').
  unfold normalForm in *. split.
  - rewrite normalizeAddress_accepts.
    + unfold normalForm. now rewrite trim_toLowerCase, toLowerCase_idem.
    + destruct a; [contradiction|discriminate].
    + now rewrite trim_toLowerCase.
  - rewrite normalizeAddress_accepts.
    + unfold normalForm. now rewrite trim_idem.
    + intros E. rewrite E in Hre. discriminate.
    + now rewrite trim_idem.
Qed.

Lemma normalizeAddress_spelling_witness :
  let o := "0xabcdef0123456789abcdef0123456789abcdef01" in
  normalizeAddress (toLowerCase " 0XABCDEF0123456789abcdef0123456789ABCDEF01") = Ok o
  /\ normalizeAddress (trim " 0XABCDEF0123456789abcdef0123456789ABCDEF01") = Ok o.
Proof.
  exact (normalizeAddress_spelling " 0XABCDEF0123456789abcdef0123456789ABCDEF01" _ eq_refl).
Defined.

End AddressNormalForm.

Section PrivateKeyValidity.

Lemma trim_cons_notSpace (c : ascii) (s : string) :
  isWhiteSpace c = false -> trim (String c s) = String c (trimEnd s).
Proof.
  intros Hc. unfold trim. simpl trimStart. rewrite Hc. simpl.
  destruct (trimEnd s); [now rewrite Hc|reflexivity].
Qed.

Lemma isValidPrivateKey_trim (k : string) :
  k <> "" -> isValidPrivateKey (trim k) = isValidPrivateKey k.
Proof.
  intros Hk. unfold isValidPrivateKey.
  destruct (String.eqb_spec k ""); [contradiction|].
  rewrite trim_idem. destruct (String.eqb_spec (trim k) "") as [E|_]; [|reflexivity].
  rewrite E. reflexivity.
Qed.

Lemma normalizePrivateKey_Ok_valid (k r : string) :
  normalizePrivateKey k = Ok r -> isValidPrivateKey k = true.
Proof.
  unfold normalizePrivateKey.
  destruct (String.eqb_spec k "") as [|Hk]; [discriminate|].
  destruct (startsWith "suiprivkey" (trim k)); [discriminate|].
  destruct (_ && _ && _); [discriminate|].
  destruct (isValidPrivateKey (trim k)) eqn:Hv; [|discriminate].
  intros _. now rewrite <- (isValidPrivateKey_trim k Hk).
Qed.

Lemma normalizePrivateKey_valid_Ok (k : string) :
  isValidPrivateKey k = true -> exists r, normalizePrivateKey k = Ok r.
Proof.
  intros Hv.
  assert (Hk : k <> "") by (intros ->; discriminate).
  pose proof Hv as Hv'. rewrite <- (isValidPrivateKey_trim k Hk) in Hv'.
  unfold isValidPrivateKey in Hv. unfold normalizePrivateKey.
  destruct (String.eqb_spec k ""); [contradiction|].
  apply re_hex_exactly_spec in Hv as [Hlen Hhex].
  destruct (startsWith "suiprivkey" (trim k)) eqn:Esui.
  { exfalso. destruct (trim k) as [|c t]; [discriminate|].
    change (startsWith "suiprivkey" (String c t))
      with (Ascii.eqb "s" c && startsWith "uiprivkey" t) in Esui.
    apply andb_prop in Esui as [Ec _]. apply Ascii.eqb_eq in Ec. subst c.
    change (startsWith "0x" (String "s" t)) with false in Hhex.
    cbv iota in Hhex. simpl in Hhex. discriminate. }
  destruct (startsWith "0x" (trim k)) eqn:E0x.
  - rewrite andb_false_r, Hv'. simpl. eauto.
  - rewrite Hlen, Hv'. simpl. eauto.
Qed.

Lemma normalizePrivateKey_Throw_field (k : string) (err : ValidationError) :
  normalizePrivateKey k = Throw err -> field err = "PRIVATE_KEY".
Proof.
  unfold normalizePrivateKey.
  destruct (String.eqb k ""); [now intros [= <-]|].
  destruct (startsWith "suiprivkey" (trim k)); [now intros [= <-]|].
  destruct (_ && _ && _); [now intros [= <-]|].
  destruct (negb _); [now intros [= <-]|discriminate].
Qed.

(** X3: [normalizePrivateKey] accepts exactly the keys [isValidPrivateKey]
    accepts (the Sui and base58 branches only choose the message), and every
    error it throws is for field PRIVATE_KEY. *)
Theorem normalizePrivateKey_accepts_iff_valid (k : string) :
  (isValidPrivateKey k = true <-> exists r, normalizePrivateKey k = Ok r)
  /\ (forall err, normalizePrivateKey k = Throw err ->
        field err = "PRIVATE_KEY" /\ isValidPrivateKey k = false).
Proof.
  split.
  - split; [apply normalizePrivateKey_valid_Ok|].
    intros [r Hr]. now apply (normalizePrivateKey_Ok_valid k r).
  - intros err Herr. split; [now apply (normalizePrivateKey_Throw_field k)|].
    destruct (isValidPrivateKey k) eqn:E; [|reflexivity].
    apply normalizePrivateKey_valid_Ok in E as [r Hr]. congruence.
Qed.

Lemma normalizePrivateKey_accepts_iff_valid_witness :
  exists err,
    normalizePrivateKey "suiprivkey1qexample" = Throw err
    /\ field err = "PRIVATE_KEY" /\ isValidPrivateKey "suiprivkey1qexample" = false.
Proof.
  eexists. split; [reflexivity|].
  exact (proj2 (normalizePrivateKey_accepts_iff_valid "suiprivkey1qexample") _ eq_refl).
Defined.

(** X4: the ["0x"] prefix of a private key is matched case-sensitively: a key
    written with ["0X"] is rejected whatever follows, while an address written
    with ["0X"] is accepted and normalised to ["0x"]. *)
Theorem uppercase_prefix_key_rejected (h : string) :
  (exists err, normalizePrivateKey ("0X" +:+ h) = Throw err)
  /\ (String.length h = 40%nat -> allHex h = true ->
      normalizeAddress ("0X" +:+ h) = Ok ("0x" +:+ toLowerCase h)).
Proof.
  split.
  - destruct (normalizePrivateKey ("0X" +:+ h)) as [r|err] eqn:E; [exfalso|eauto].
    apply normalizePrivateKey_Ok_valid in E. revert E.
    unfold isValidPrivateKey.
    change ("0X" +:+ h) with (String "0" (String "X" h)).
    rewrite (trim_cons_notSpace "0" _ eq_refl).
    change (trimEnd (String "X" h)) with
      (match trimEnd h with
       | EmptyString => String "X" EmptyString
       | t => String "X" t
       end).
    destruct (trimEnd h) as [|c t]; intros Hv;
      apply re_hex_exactly_spec in Hv as [_ Hv]; vm_compute in Hv; discriminate.
  - intros Hl Hh.
    assert (Ht : trim ("0X" +:+ h) = "0X" +:+ h).
    { apply trim_noWhiteSpace.
      change (noWhiteSpace ("0X" +:+ h)) with
        (negb (isWhiteSpace "0") && (negb (isWhiteSpace "X") && noWhiteSpace h)).
      rewrite (allHex_noWhiteSpace h Hh). reflexivity. }
    rewrite normalizeAddress_accepts.
    + unfold normalForm. rewrite Ht. reflexivity.
    + discriminate.
    + rewrite Ht. change (re_address_i ("0X" +:+ h)) with (re_hex_exactly 40 h).
      apply re_hex_exactly_spec. now split.
Qed.

Lemma uppercase_prefix_key_rejected_witness :
  normalizeAddress "0XABCDEF0123456789abcdef0123456789ABCDEF01"
  = Ok "0xabcdef0123456789abcdef0123456789abcdef01".
Proof.
  exact (proj2 (uppercase_prefix_key_rejected "ABCDEF0123456789abcdef0123456789ABCDEF01")
           eq_refl eq_refl).
Defined.

End PrivateKeyValidity.

Section ValidateAddressesMore.

Lemma validateAddresses_accepts (addresses : list string) :
  addresses <> [] -> existsb addressRejected addresses = false ->
  validateAddresses addresses = Ok (List.map normalForm addresses).
Proof.
  intros Hne Hall. pose proof (forEachAddress_spec addresses [] [] 0%nat) as Hloop.
  destruct addresses as [|a rest]; [congruence|].
  unfold validateAddresses.
  destruct (forEachAddress _ _ (a :: rest)) as [n' e'].
  destruct Hloop as (_ & _ & Hok). destruct (Hok Hall) as [-> ->]. reflexivity.
Qed.

Lemma validateAddresses_Ok_shape (addresses out : list string) :
  validateAddresses addresses = Ok out ->
  addresses <> [] /\ existsb addressRejected addresses = false
  /\ out = List.map normalForm addresses.
Proof.
  intros Hok. destruct addresses as [|a rest]; [discriminate|].
  split; [discriminate|].
  destruct (existsb addressRejected (a :: rest)) eqn:Hex.
  - exfalso. pose proof (forEachAddress_spec (a :: rest) [] [] 0%nat) as Hloop.
    unfold validateAddresses in Hok.
    destruct (forEachAddress _ _ (a :: rest)) as [n' e'].
    destruct Hloop as (_ & Hlt & _). specialize (Hlt Hex). simpl in Hlt.
    destruct (Nat.ltb_spec 0 (length e')); [discriminate|lia].
  - split; [reflexivity|].
    rewrite (validateAddresses_accepts (a :: rest)) in Hok by (discriminate || exact Hex).
    congruence.
Qed.

Lemma normalForm_accepted_fixed (a : string) :
  addressRejected a = false ->
  addressRejected (normalForm a) = false /\ normalForm (normalForm a) = normalForm a.
Proof.
  intros Ha%addressRejected_false.
  pose proof (normalizeAddress_Ok_fixed a _ Ha) as Hfix.
  unfold addressRejected. fold (normalForm a) in Hfix. rewrite Hfix.
  split; [reflexivity|].
  apply normalizeAddress_Ok_valid in Hfix as (_ & _ & Heq). now symmetry.
Qed.

(** X6: [validateAddresses] is idempotent: a list it returned is accepted
    again and returned unchanged. *)
Theorem validateAddresses_idempotent (addresses out : list string) :
  validateAddresses addresses = Ok out -> validateAddresses out = Ok out.
Proof.
  intros (Hne & Hall & ->)%validateAddresses_Ok_shape.
  assert (Hout : existsb addressRejected (List.map normalForm addresses) = false
                 /\ List.map normalForm (List.map normalForm addresses)
                    = List.map normalForm addresses).
  { clear Hne. induction addresses as [|a rest IH]; [split; reflexivity|].
    simpl in Hall. apply orb_false_iff in Hall as [Ha Hrest].
    destruct (IH Hrest) as [IH1 IH2].
    destruct (normalForm_accepted_fixed a Ha) as [H1 H2].
    simpl. now rewrite H1, H2, IH1, IH2. }
  destruct Hout as [Hacc Hfix].
  rewrite validateAddresses_accepts; [now rewrite Hfix| |exact Hacc].
  destruct addresses; [congruence|discriminate].
Qed.

Lemma validateAddresses_idempotent_witness :
  let out := ["0xabcdef0123456789abcdef0123456789abcdef01"] in
  validateAddresses out = Ok out.
Proof.
  exact (validateAddresses_idempotent
           [" 0XABCDEF0123456789abcdef0123456789ABCDEF01"] _ eq_refl).
Defined.

(** The errors the loop of [validateAddresses] collects: one line for every
    rejected entry, labelled with the index of the entry. *)
Lemma forEachAddress_errors (addresses : list string) :
  forall normalized errors index,
    exists lines,
      snd (forEachAddress (normalized, errors) index addresses) = (errors ++ lines)%list
      /\ length lines = length (List.filter addressRejected addresses)
      /\ (forall i a err, addresses !! i = Some a -> normalizeAddress a = Throw err ->
            errorLine (index + i) err ∈ lines).
Proof.
  induction addresses as [|a rest IH]; intros normalized errors index.
  - exists []. simpl. rewrite app_nil_r. repeat split. intros i a err Hi. discriminate.
  - assert (Hrej : addressRejected a =
                   match normalizeAddress a with Ok _ => false | Throw _ => true end)
      by reflexivity.
    cbn [forEachAddress List.filter]. rewrite Hrej. unfold visitAddress.
    destruct (normalizeAddress a) as [o|e] eqn:E.
    + destruct (IH (normalized ++ [o])%list errors (S index)) as (lines & H1 & H2 & H3).
      exists lines. split; [exact H1|]. split; [exact H2|].
      intros [|i] x err Hi Hx; simpl in Hi.
      * injection Hi as <-. congruence.
      * replace (index + S i)%nat with (S index + i)%nat by lia. eauto.
    + destruct (IH normalized (errors ++ [errorLine index e])%list (S index))
        as (lines & H1 & H2 & H3).
      exists (errorLine index e :: lines). split; [|split].
      * unfold errorLine in *. rewrite H1, <- app_assoc. reflexivity.
      * simpl. now rewrite H2.
      * intros [|i] x err Hi Hx; simpl in Hi.
        -- injection Hi as <-. rewrite E in Hx. injection Hx as <-.
           rewrite Nat.add_0_r. left.
        -- replace (index + S i)%nat with (S index + i)%nat by lia.
           right. eauto.
Qed.

(** X7: [validateAddresses] does not stop at the first bad entry: the error
    it throws lists one line per rejected entry, and the entry at index [i],
    rejected with [err], is reported as [Address[i]: err.message]. *)
Theorem validateAddresses_reports_every_rejection (addresses : list string) :
  existsb addressRejected addresses = true ->
  exists lines,
    validateAddresses addresses =
      Throw (mkValidationError ("Invalid addresses found:" +:+ nl +:+ join nl lines)
               "TARGET_ADDRESSES")
    /\ length lines = length (List.filter addressRejected addresses)
    /\ (forall i a err, addresses !! i = Some a -> normalizeAddress a = Throw err ->
          errorLine i err ∈ lines).
Proof.
  intros Hex.
  destruct (forEachAddress_errors addresses [] [] 0%nat) as (lines & H1 & H2 & H3).
  exists lines. split; [|split; [exact H2|exact H3]].
  destruct addresses as [|a rest]; [discriminate|].
  unfold validateAddresses.
  destruct (forEachAddress _ _ (a :: rest)) as [n' e']. simpl in H1. subst e'.
  assert (Hpos : (0 < length lines)%nat).
  { rewrite H2. apply existsb_exists in Hex as (x & Hx & Hrej).
    assert (Hin : In x (List.filter addressRejected (a :: rest)))
      by (apply filter_In; auto).
    destruct (List.filter addressRejected (a :: rest)); [destruct Hin|simpl; lia]. }
  destruct (Nat.ltb_spec 0 (length lines)); [reflexivity|lia].
Qed.

Lemma validateAddresses_reports_every_rejection_witness :
  exists lines,
    validateAddresses ["0x1111111111111111111111111111111111111111"; "0x12"; ""] =
      Throw (mkValidationError ("Invalid addresses found:" +:+ nl +:+ join nl lines)
               "TARGET_ADDRESSES")
    /\ length lines = 2%nat.
Proof.
  destruct (validateAddresses_reports_every_rejection
              ["0x1111111111111111111111111111111111111111"; "0x12"; ""] eq_refl)
    as (lines & Hthrow & Hlen & _).
  exists lines. split; [exact Hthrow|exact Hlen].
Defined.

End ValidateAddressesMore.

(** * Further properties of loadEnv *)

Section ParseList.
Context `{Runtime}.

Lemma splitComma_plain (x : string) : noComma x = true -> splitComma x = [x].
Proof.
  induction x as [|c x IH]; simpl; [reflexivity|].
  intros [Hc Hx]%andb_prop. apply negb_true_iff in Hc. rewrite Hc, (IH Hx). reflexivity.
Qed.

Lemma splitComma_app (x s : string) :
  noComma x = true -> splitComma (x +:+ "," +:+ s) = x :: splitComma s.
Proof.
  induction x as [|c x IH]; intros Hx.
  - reflexivity.
  - simpl in Hx. apply andb_prop in Hx as [Hc Hx]. apply negb_true_iff in Hc.
    change (String c x +:+ "," +:+ s) with (String c (x +:+ "," +:+ s)).
    cbn [splitComma]. rewrite Hc, (IH Hx). reflexivity.
Qed.

Lemma splitComma_join (l : list string) :
  l <> [] -> Forall (fun s => noComma s = true) l -> splitComma (join "," l) = l.
Proof.
  induction l as [|x [|y rest] IH]; intros Hne Hall; [congruence| |].
  - apply Forall_cons in Hall as [Hx _]. now apply splitComma_plain.
  - apply Forall_cons in Hall as [Hx Hrest].
    change (join "," (x :: y :: rest)) with (x +:+ "," +:+ join "," (y :: rest)).
    rewrite (splitComma_app _ _ Hx), IH; [reflexivity|discriminate|exact Hrest].
Qed.

Lemma join_nonempty (l : list string) (x : string) :
  x <> "" -> join "," (x :: l) <> "".
Proof.
  destruct x as [|c x]; [congruence|]. intros _.
  destruct l; [discriminate|].
  change (join "," (String c x :: s :: l)) with (String c (x +:+ "," +:+ join "," (s :: l))).
  discriminate.
Qed.

(** X8: an unset or empty variable is the empty list, and, unless the text
    is a JSON array, every entry [parseList] returns is non-empty and free of
    surrounding white space. *)
Theorem parseList_entries_trimmed (v : string) :
  (parseList None = [] /\ parseList (Some "") = [])
  /\ ((forall items, JSON_parse v <> Some (JArray items)) ->
      Forall (fun s => s <> "" /\ trim s = s) (parseList (Some v))).
Proof.
  split; [split; reflexivity|]. intros Hjson. unfold parseList.
  destruct (negb (Boolean v)); [constructor|].
  assert (Hsplit : Forall (fun s => s <> "" /\ trim s = s)
                     (List.filter Boolean (List.map trim (splitComma v)))).
  { apply Forall_forall. intros s Hs. apply list_elem_of_In, filter_In in Hs as [Hin Hb].
    apply in_map_iff in Hin as (x & <- & _). split; [|apply trim_idem].
    unfold Boolean in Hb. intros E. rewrite E in Hb. discriminate. }
  destruct (JSON_parse v) as [[]|]; try exact Hsplit.
  now contradiction (Hjson items).
Qed.

(** X9: a list of plain entries (non-empty, without commas or surrounding
    white space) written comma-separated is read back as it was, unless the
    text happens to be a JSON array. *)
Theorem parseList_join_round_trip (l : list string) :
  Forall plainEntry l ->
  (forall items, JSON_parse (join "," l) <> Some (JArray items)) ->
  parseList (Some (join "," l)) = l.
Proof.
  intros Hplain Hjson. destruct l as [|x rest]; [reflexivity|].
  assert (Hx : x <> "") by (apply Forall_cons in Hplain as [[Hx _] _]; exact Hx).
  unfold parseList. unfold Boolean at 1.
  destruct (String.eqb_spec (join "," (x :: rest)) "") as [E|_].
  { now apply join_nonempty in E. }
  simpl negb.
  assert (Hsplit : List.filter Boolean (List.map trim (splitComma (join "," (x :: rest))))
                   = x :: rest).
  { rewrite splitComma_join; [|discriminate|].
    - clear Hjson Hx. induction Hplain as [|y ys (Hy & _ & Ht) _ IH]; [reflexivity|].
      simpl. rewrite Ht. unfold Boolean at 1.
      destruct (String.eqb_spec y ""); [contradiction|]. simpl. now rewrite IH.
    - eapply Forall_impl; [exact Hplain|]. now intros s (_ & Hs & _). }
  destruct (JSON_parse (join "," (x :: rest))) as [[]|] eqn:E; try exact Hsplit.
  now contradiction (Hjson items).
Qed.

(** When an item of the JSON array cannot be converted by [String], the
    error is swallowed and the raw text is read as a comma-separated list. *)
Lemma parseList_conversion_throws (v : string) (items : list json) :
  v <> "" -> JSON_parse v = Some (JArray items) -> mapString items = None ->
  parseList (Some v) = List.filter Boolean (List.map trim (splitComma v)).
Proof.
  intros Hv Hjson Hthrow. unfold parseList, Boolean at 1.
  destruct (String.eqb_spec v ""); [contradiction|]. simpl negb.
  now rewrite Hjson, Hthrow.
Qed.

End ParseList.

Lemma parseList_entries_trimmed_witness :
  Forall (fun s => s <> "" /\ trim s = s)
    (@parseList sampleRuntime (Some " 0xaa, ,0xbb ,,")).
Proof.
  apply (proj2 (@parseList_entries_trimmed sampleRuntime " 0xaa, ,0xbb ,,")).
  intros items. discriminate.
Defined.

Lemma parseList_join_round_trip_witness :
  @parseList sampleRuntime (Some "0xaa,0xbb") = ["0xaa"; "0xbb"].
Proof.
  apply (@parseList_join_round_trip sampleRuntime ["0xaa"; "0xbb"]).
  - repeat constructor; discriminate.
  - intros items. discriminate.
Defined.

Example parseList_drops_blank_entries :
  @parseList sampleRuntime (Some " 0xaa, ,0xbb ,,") = ["0xaa"; "0xbb"].
Proof. reflexivity. Qed.

Section LoadEnvMore.
Context `{Runtime}.

(** The steps behind a returned configuration, with their results. *)
Lemma loadEnv_Returned_steps (env : ProcessEnv) (r : RuntimeEnv) :
  loadEnv env = Returned r ->
  exists tas pub pw raw pk rpc fi fr gas,
    validateAddresses (parseList (env !! "TARGET_ADDRESSES")) = Ok tas
    /\ required "PUBLIC_KEY" (env !! "PUBLIC_KEY") = Ok pub /\ normalizeAddress pub = Ok pw
    /\ required "PRIVATE_KEY" (env !! "PRIVATE_KEY") = Ok raw
    /\ normalizePrivateKey raw = Ok pk
    /\ checkRpcUrl env = Ok rpc
    /\ checkFetchInterval env = Ok fi
    /\ checkFrontrunSizeMultiplier env = Ok fr
    /\ checkGasPriceMultiplier env = Ok gas
    /\ r = builtEnv env tas pw pk rpc fi fr gas.
Proof.
  intros Hr%loadEnv_Returned_inv. unfold loadEnv_try in Hr.
  apply bind_Ok_inv in Hr as (tas & E1 & Hr).
  apply bind_Ok_inv in Hr as (pub & E2 & Hr).
  apply bind_Ok_inv in Hr as (pw & E3 & Hr).
  apply bind_Ok_inv in Hr as (raw & E4 & Hr).
  apply bind_Ok_inv in Hr as (pk & E5 & Hr).
  apply bind_Ok_inv in Hr as (rpc & E6 & Hr).
  apply bind_Ok_inv in Hr as (fi & E7 & Hr).
  apply bind_Ok_inv in Hr as (fr & E8 & Hr).
  apply bind_Ok_inv in Hr as (gas & E9 & Hr).
  injection Hr as <-.
  exists tas, pub, pw, raw, pk, rpc, fi, fr, gas. repeat split; assumption.
Qed.

Lemma validateAddresses_Ok_format (addresses out : list string) :
  validateAddresses addresses = Ok out -> out <> [] /\ Forall isAddressFormat out.
Proof.
  intros (Hne & Hall & ->)%validateAddresses_Ok_shape. split.
  - destruct addresses; [congruence|discriminate].
  - clear Hne. induction addresses as [|a rest IH]; [constructor|].
    simpl in Hall. apply orb_false_iff in Hall as [Ha Hrest].
    simpl. constructor; [|now apply IH].
    apply addressRejected_false in Ha. now apply normalizeAddress_Ok_inv in Ha.
Qed.

(** X10: the configuration [loadEnv] returns is normalised: the target
    addresses are a non-empty list of ["0x"] + 40 hex addresses, so is the
    proxy wallet, the private key is ["0x"] + 64 hex characters, and the RPC
    URL is trimmed and passes [isValidRpcUrl]. *)
Theorem loadEnv_returns_normalised (env : ProcessEnv) (r : RuntimeEnv) :
  loadEnv env = Returned r ->
  targetAddresses r <> [] /\ Forall isAddressFormat (targetAddresses r)
  /\ isAddressFormat (proxyWallet r)
  /\ isNormalPrivateKey (privateKey r)
  /\ trim (rpcUrl r) = rpcUrl r /\ isValidRpcUrl (rpcUrl r) = true.
Proof.
  intros (tas & pub & pw & raw & pk & rpc & fi & fr & gas
          & E1 & _ & E3 & _ & E5 & E6 & _ & _ & _ & ->)%loadEnv_Returned_steps.
  simpl.
  apply validateAddresses_Ok_format in E1 as [Hne Hfmt].
  apply normalizeAddress_Ok_inv in E3 as [_ Hpw].
  apply normalizePrivateKey_Ok_inv in E5 as (h & -> & [Hl Hh]%re_hex_exactly_spec).
  apply checkRpcUrl_Ok_inv in E6 as (u & _ & _ & -> & Hvalid).
  repeat split; try assumption.
  - now exists h.
  - apply trim_idem.
Qed.

(** X11: in every configuration [loadEnv] returns, with the variables set or
    left to their defaults, the frontrun size multiplier is present and
    within 0..1, the gas price multiplier is present and at least 1, and the
    minimum trade size is present. *)
Theorem loadEnv_returns_multipliers_in_range (env : ProcessEnv) (r : RuntimeEnv) :
  loadEnv env = Returned r ->
  exists fr gas size,
    frontrunSizeMultiplier r = Some fr /\ inUnitRange fr = true
    /\ gasPriceMultiplier r = Some gas /\ atLeastOne gas = true
    /\ minTradeSizeUsd r = Some size.
Proof.
  intros (tas & pub & pw & raw & pk & rpc & fi & fr & gas
          & _ & _ & _ & _ & _ & _ & _ & E8 & E9 & ->)%loadEnv_Returned_steps.
  exists fr, gas, (numberOr (env !! "MIN_TRADE_SIZE_USD") 100). simpl.
  pose proof (checkFrontrunSizeMultiplier_spec env) as Hfr.
  pose proof (checkGasPriceMultiplier_spec env) as Hgas. cbv zeta in Hfr, Hgas.
  destruct (inUnitRange _) eqn:Efr; [|destruct Hfr; congruence].
  destruct (atLeastOne _) eqn:Egas; [|destruct Hgas; congruence].
  rewrite Hfr in E8. rewrite Hgas in E9. injection E8 as <-. injection E9 as <-.
  auto.
Qed.

(** X12: when the variables read with a default are all unset and the
    addresses, keys and RPC URL are valid, [loadEnv] returns the defaults:
    poll interval 1 s, frontrun multiplier 0.5, gas multiplier 1.2, trade
    multiplier 1, retry limit 3, aggregation off with a 300 s window, the
    Polygon USDC contract and a minimum trade size of 100. *)
Theorem loadEnv_defaults (env : ProcessEnv) :
  identityChecksPass env ->
  Forall (fun name => env !! name = None) defaultedVariables ->
  exists r,
    loadEnv env = Returned r
    /\ fetchIntervalSeconds r = 1%float
    /\ frontrunSizeMultiplier r = Some 0.5%float
    /\ gasPriceMultiplier r = Some 1.2%float
    /\ tradeMultiplier r = 1%float /\ retryLimit r = 3%float
    /\ aggregationEnabled r = false /\ aggregationWindowSeconds r = 300%float
    /\ usdcContractAddress r = "0x2791Bca1f2de4661ED88A30C99A7a9449Aa84174"
    /\ minTradeSizeUsd r = Some 100%float.
Proof.
  intros ((tas & E1) & (pub & pw & E2 & E3) & (raw & pk & E4 & E5) & (rpc & E6)) Hunset.
  unfold defaultedVariables in Hunset.
  repeat match goal with
         | Hf : Forall _ (_ :: _) |- _ => apply Forall_cons in Hf as [? Hf]
         end.
  exists (builtEnv env tas pw pk rpc 1 0.5 1.2). split.
  - unfold loadEnv. rewrite (loadEnv_try_numeric env _ _ _ _ _ _ E1 E2 E3 E4 E5 E6).
    unfold checkFetchInterval, checkFrontrunSizeMultiplier, checkGasPriceMultiplier.
    repeat match goal with Hk : env !! _ = None |- _ => rewrite Hk; clear Hk end.
    reflexivity.
  - simpl.
    repeat match goal with Hk : env !! _ = None |- _ => rewrite Hk; clear Hk end.
    repeat split; reflexivity.
Qed.

End LoadEnvMore.

Lemma loadEnv_returns_normalised_witness :
  exists r, @loadEnv sampleRuntime sampleEnv = Returned r
            /\ isAddressFormat (proxyWallet r) /\ isNormalPrivateKey (privateKey r).
Proof.
  destruct (@loadEnv sampleRuntime sampleEnv) as [r|code err] eqn:E; [|discriminate].
  exists r. split; [reflexivity|].
  destruct (@loadEnv_returns_normalised sampleRuntime sampleEnv r E)
    as (_ & _ & Hpw & Hpk & _).
  split; assumption.
Defined.

Lemma loadEnv_returns_multipliers_in_range_witness :
  exists r fr gas,
    @loadEnv sampleRuntime (<["GAS_PRICE_MULTIPLIER" := "2"]> sampleEnv) = Returned r
    /\ frontrunSizeMultiplier r = Some fr /\ inUnitRange fr = true
    /\ gasPriceMultiplier r = Some gas /\ atLeastOne gas = true.
Proof.
  destruct (@loadEnv sampleRuntime (<["GAS_PRICE_MULTIPLIER" := "2"]> sampleEnv))
    as [r|code err] eqn:E; [|discriminate].
  destruct (@loadEnv_returns_multipliers_in_range sampleRuntime _ r E)
    as (fr & gas & size & H1 & H2 & H3 & H4 & _).
  exists r, fr, gas. repeat split; assumption.
Defined.

Lemma loadEnv_defaults_witness :
  exists r,
    @loadEnv sampleRuntime sampleEnv = Returned r
    /\ fetchIntervalSeconds r = 1%float /\ retryLimit r = 3%float.
Proof.
  destruct (@loadEnv_defaults sampleRuntime sampleEnv) as (r & Hr & Hfi & _ & _ & _ & Hrl & _).
  - unfold identityChecksPass. repeat first [split | eexists]; vm_compute; reflexivity.
  - repeat constructor.
  - exists r. repeat split; assumption.
Defined.

Section LoadEnvEdges.
Context `{Runtime}.

Lemma Number_blank (v : string) : trim v = "" -> Number v = 0%float.
Proof. intros Hv. unfold Number. now rewrite Hv. Qed.

(** X13: a numeric variable that is set but blank is not replaced by its
    default: it is read as the number 0.  So a blank
    FRONTRUN_SIZE_MULTIPLIER is accepted as 0 (not 0.5), while a blank
    FETCH_INTERVAL or GAS_PRICE_MULTIPLIER is rejected. *)
Theorem blank_number_is_zero (env : ProcessEnv) (v : string) :
  trim v = "" ->
  (env !! "FRONTRUN_SIZE_MULTIPLIER" = Some v ->
   checkFrontrunSizeMultiplier env = Ok 0%float)
  /\ (env !! "FETCH_INTERVAL" = Some v ->
      exists msg, checkFetchInterval env = Throw (mkValidationError msg "FETCH_INTERVAL"))
  /\ (env !! "GAS_PRICE_MULTIPLIER" = Some v ->
      exists msg,
        checkGasPriceMultiplier env = Throw (mkValidationError msg "GAS_PRICE_MULTIPLIER")).
Proof.
  intros Hv%Number_blank. split; [|split]; intros Hk.
  - unfold checkFrontrunSizeMultiplier. rewrite Hk. simpl numberOr. rewrite Hv. reflexivity.
  - unfold checkFetchInterval. rewrite Hk. simpl numberOr. rewrite Hv. eexists. reflexivity.
  - unfold checkGasPriceMultiplier. rewrite Hk. simpl numberOr. rewrite Hv.
    eexists. reflexivity.
Qed.

Lemma validateAddresses_Throw_field (addresses : list string) (err : ValidationError) :
  validateAddresses addresses = Throw err -> field err = "TARGET_ADDRESSES".
Proof.
  unfold validateAddresses. destruct addresses as [|a rest]; [now intros [= <-]|].
  destruct (forEachAddress _ _ _) as [n e].
  destruct (0 <? length e)%nat; [now intros [= <-]|discriminate].
Qed.

Lemma required_Throw_field (name : string) (v : option string) (err : ValidationError) :
  required name v = Throw err -> field err = name.
Proof.
  unfold required. destruct v as [s|]; [|now intros [= <-]].
  destruct (Boolean s); [discriminate|now intros [= <-]].
Qed.

Lemma normalizeAddress_Throw_field (a : string) (err : ValidationError) :
  normalizeAddress a = Throw err -> field err = "ADDRESS".
Proof.
  unfold normalizeAddress.
  destruct (String.eqb a ""); [now intros [= <-]|].
  destruct (negb _); [now intros [= <-]|discriminate].
Qed.

Lemma checkRpcUrl_Throw_field (env : ProcessEnv) (err : ValidationError) :
  checkRpcUrl env = Throw err -> field err = "RPC_URL".
Proof.
  unfold checkRpcUrl.
  destruct (required "RPC_URL" _) as [u|e] eqn:E; cbn [mbind result_bind].
  - destruct (negb _); [now intros [= <-]|discriminate].
  - intros [= <-]. now apply required_Throw_field in E.
Qed.

(** How the [try] block of [loadEnv] throws: the error of its first failing
    step. *)
Lemma loadEnv_try_Throw_step (env : ProcessEnv) (err : ValidationError) :
  loadEnv_try env = Throw err ->
  validateAddresses (parseList (env !! "TARGET_ADDRESSES")) = Throw err
  \/ required "PUBLIC_KEY" (env !! "PUBLIC_KEY") = Throw err
  \/ (exists pub, normalizeAddress pub = Throw err)
  \/ required "PRIVATE_KEY" (env !! "PRIVATE_KEY") = Throw err
  \/ (exists raw, normalizePrivateKey raw = Throw err)
  \/ checkRpcUrl env = Throw err
  \/ checkFetchInterval env = Throw err
  \/ checkFrontrunSizeMultiplier env = Throw err
  \/ checkGasPriceMultiplier env = Throw err.
Proof.
  unfold loadEnv_try.
  destruct (validateAddresses _) as [tas|e1] eqn:E1; cbn [mbind result_bind].
  2:{ intros [= <-]. tauto. }
  destruct (required "PUBLIC_KEY" _) as [pub|e2] eqn:E2; cbn [mbind result_bind].
  2:{ intros [= <-]. tauto. }
  destruct (normalizeAddress pub) as [pw|e3] eqn:E3; cbn [mbind result_bind].
  2:{ intros [= <-]. right. right. left. eauto. }
  destruct (required "PRIVATE_KEY" _) as [raw|e4] eqn:E4; cbn [mbind result_bind].
  2:{ intros [= <-]. tauto. }
  destruct (normalizePrivateKey raw) as [pk|e5] eqn:E5; cbn [mbind result_bind].
  2:{ intros [= <-]. do 4 right. left. eauto. }
  destruct (checkRpcUrl env) as [rpc|e6] eqn:E6; cbn [mbind result_bind].
  2:{ intros [= <-]. tauto. }
  destruct (checkFetchInterval env) as [fi|e7] eqn:E7; cbn [mbind result_bind].
  2:{ intros [= <-]. tauto. }
  destruct (checkFrontrunSizeMultiplier env) as [fr|e8] eqn:E8; cbn [mbind result_bind].
  2:{ intros [= <-]. tauto. }
  destruct (checkGasPriceMultiplier env) as [gas|e9] eqn:E9; cbn [mbind result_bind].
  - discriminate.
  - intros [= <-]. tauto.
Qed.

(** X14: when [loadEnv] exits, the code is 1 and the error names one of
    eight fields: TARGET_ADDRESSES, PUBLIC_KEY, ADDRESS, PRIVATE_KEY,
    RPC_URL, FETCH_INTERVAL, FRONTRUN_SIZE_MULTIPLIER or
    GAS_PRICE_MULTIPLIER. *)
Theorem loadEnv_exit_fields (env : ProcessEnv) (code : Z) (err : ValidationError) :
  loadEnv env = Exited code err -> code = 1%Z /\ field err ∈ errorFields.
Proof.
  unfold loadEnv. destruct (loadEnv_try env) as [r|e] eqn:E; [discriminate|].
  intros [= <- <-]. split; [reflexivity|].
  apply loadEnv_try_Throw_step in E as
    [E | [E | [[pub E] | [E | [[raw E] | [E | [E | [E | E]]]]]]]].
  - apply validateAddresses_Throw_field in E as ->. set_solver.
  - apply required_Throw_field in E as ->. set_solver.
  - apply normalizeAddress_Throw_field in E as ->. set_solver.
  - apply required_Throw_field in E as ->. set_solver.
  - apply normalizePrivateKey_Throw_field in E as ->. set_solver.
  - apply checkRpcUrl_Throw_field in E as ->. set_solver.
  - pose proof (checkFetchInterval_spec env) as Hc. cbv zeta in Hc.
    destruct (atLeastFloor _); [congruence|]. destruct Hc as [msg Hc].
    rewrite Hc in E. injection E as <-. set_solver.
  - pose proof (checkFrontrunSizeMultiplier_spec env) as Hc. cbv zeta in Hc.
    destruct (inUnitRange _); [congruence|]. destruct Hc as [msg Hc].
    rewrite Hc in E. injection E as <-. set_solver.
  - pose proof (checkGasPriceMultiplier_spec env) as Hc. cbv zeta in Hc.
    destruct (atLeastOne _); [congruence|]. destruct Hc as [msg Hc].
    rewrite Hc in E. injection E as <-. set_solver.
Qed.

(** X15: [loadEnv] validates in a fixed order and reports the first failure.
    Rejected target addresses are reported for field TARGET_ADDRESSES whatever
    else is wrong; with valid target addresses, a missing or empty PUBLIC_KEY
    is reported for field PUBLIC_KEY, but a PUBLIC_KEY that is present and
    malformed is reported for field ADDRESS. *)
Theorem loadEnv_reports_first_failure (env : ProcessEnv) :
  (rejects (validateAddresses (parseList (env !! "TARGET_ADDRESSES"))) ->
   exists msg, loadEnv env = Exited 1 (mkValidationError msg "TARGET_ADDRESSES"))
  /\ (forall tas, validateAddresses (parseList (env !! "TARGET_ADDRESSES")) = Ok tas ->
      (env !! "PUBLIC_KEY" = None \/ env !! "PUBLIC_KEY" = Some "" ->
       exists msg, loadEnv env = Exited 1 (mkValidationError msg "PUBLIC_KEY"))
      /\ (forall a, env !! "PUBLIC_KEY" = Some a -> a <> "" ->
          rejects (normalizeAddress a) ->
          exists msg, loadEnv env = Exited 1 (mkValidationError msg "ADDRESS"))).
Proof.
  split; [|intros tas E1; split].
  - intros [err Herr]. pose proof (validateAddresses_Throw_field _ _ Herr) as Hf.
    destruct err as [msg f]. simpl in Hf. subst f. exists msg.
    unfold loadEnv, loadEnv_try. rewrite Herr. reflexivity.
  - intros Hmiss. unfold loadEnv, loadEnv_try. rewrite E1. cbn [mbind result_bind].
    destruct Hmiss as [-> | ->]; eexists; reflexivity.
  - intros a Ha Hne [err Herr].
    pose proof (normalizeAddress_Throw_field _ _ Herr) as Hf.
    destruct err as [msg f]. simpl in Hf. subst f. exists msg.
    unfold loadEnv, loadEnv_try. rewrite E1. cbn [mbind result_bind].
    rewrite Ha. unfold required, Boolean.
    destruct (String.eqb_spec a ""); [contradiction|]. cbn [negb mbind result_bind].
    rewrite Herr. reflexivity.
Qed.

(** X16: an RPC_URL made of white space only passes the presence check and
    is then rejected as malformed, whatever the URL parser does, with an
    empty value in the message. *)
Theorem blank_rpc_url_rejected (env : ProcessEnv) (u : string) :
  env !! "RPC_URL" = Some u -> u <> "" -> trim u = "" ->
  checkRpcUrl env =
    Throw (mkValidationError
             ("Invalid RPC_URL format. Expected HTTP or HTTPS URL." +:+ nl +:+ "Got: ")
             "RPC_URL").
Proof.
  intros Hu Hne Ht. unfold checkRpcUrl. rewrite Hu. unfold required, Boolean.
  destruct (String.eqb_spec u ""); [contradiction|]. cbn [negb mbind result_bind].
  rewrite Ht. reflexivity.
Qed.

(** X17: in a returned configuration, aggregation is enabled exactly when
    TRADE_AGGREGATION_ENABLED is the string ["true"], and a non-empty
    USDC_CONTRACT_ADDRESS is taken as it is, without validation, while an
    empty or unset one gives the default contract. *)
Theorem loadEnv_flags_verbatim (env : ProcessEnv) (r : RuntimeEnv) :
  loadEnv env = Returned r ->
  (aggregationEnabled r = true <-> env !! "TRADE_AGGREGATION_ENABLED" = Some "true")
  /\ (forall a, env !! "USDC_CONTRACT_ADDRESS" = Some a -> a <> "" ->
        usdcContractAddress r = a)
  /\ (env !! "USDC_CONTRACT_ADDRESS" = None \/ env !! "USDC_CONTRACT_ADDRESS" = Some "" ->
      usdcContractAddress r = "0x2791Bca1f2de4661ED88A30C99A7a9449Aa84174").
Proof.
  intros (tas & pub & pw & raw & pk & rpc & fi & fr & gas
          & _ & _ & _ & _ & _ & _ & _ & _ & _ & ->)%loadEnv_Returned_steps.
  simpl. split; [|split].
  - destruct (env !! "TRADE_AGGREGATION_ENABLED") as [s|]; simpl.
    + rewrite String.eqb_eq. split; congruence.
    + split; discriminate.
  - intros a -> Ha. unfold Boolean. now destruct (String.eqb_spec a "").
  - intros [-> | ->]; reflexivity.
Qed.

End LoadEnvEdges.

Lemma blank_number_is_zero_witness :
  checkFrontrunSizeMultiplier (<["FRONTRUN_SIZE_MULTIPLIER" := "  "]> sampleEnv)
  = Ok 0%float.
Proof.
  apply (proj1 (@blank_number_is_zero
                  (<["FRONTRUN_SIZE_MULTIPLIER" := "  "]> sampleEnv) "  " eq_refl)).
  vm_compute. reflexivity.
Defined.

Lemma loadEnv_exit_fields_witness :
  exists err,
    @loadEnv sampleRuntime (<["PUBLIC_KEY" := "0x12"]> sampleEnv) = Exited 1 err
    /\ field err ∈ errorFields.
Proof.
  destruct (@loadEnv sampleRuntime (<["PUBLIC_KEY" := "0x12"]> sampleEnv))
    as [r|code err] eqn:E; [discriminate|].
  destruct (@loadEnv_exit_fields sampleRuntime _ code err E) as [-> Hf].
  exists err. split; [reflexivity|exact Hf].
Defined.

Lemma loadEnv_reports_first_failure_witness :
  exists msg,
    @loadEnv sampleRuntime (<["PUBLIC_KEY" := "0x12"]> sampleEnv)
    = Exited 1 (mkValidationError msg "ADDRESS").
Proof.
  destruct (proj2 (@loadEnv_reports_first_failure sampleRuntime
                     (<["PUBLIC_KEY" := "0x12"]> sampleEnv))
              ["0x1111111111111111111111111111111111111111";
               "0xabcdef2222222222222222222222222222222222"]) as [_ Hbad].
  - vm_compute. reflexivity.
  - apply (Hbad "0x12"); [vm_compute; reflexivity|discriminate|].
    eexists. vm_compute. reflexivity.
Defined.

Lemma blank_rpc_url_rejected_witness :
  @checkRpcUrl sampleRuntime (<["RPC_URL" := "   "]> sampleEnv) =
    Throw (mkValidationError
             ("Invalid RPC_URL format. Expected HTTP or HTTPS URL." +:+ nl +:+ "Got: ")
             "RPC_URL").
Proof.
  apply (@blank_rpc_url_rejected sampleRuntime _ "   ");
    [vm_compute; reflexivity|discriminate|reflexivity].
Defined.

Lemma loadEnv_flags_verbatim_witness :
  exists r,
    @loadEnv sampleRuntime
      (<["TRADE_AGGREGATION_ENABLED" := "TRUE"]>
         (<["USDC_CONTRACT_ADDRESS" := "not-an-address"]> sampleEnv)) = Returned r
    /\ aggregationEnabled r = false
    /\ usdcContractAddress r = "not-an-address".
Proof.
  destruct (@loadEnv sampleRuntime
              (<["TRADE_AGGREGATION_ENABLED" := "TRUE"]>
                 (<["USDC_CONTRACT_ADDRESS" := "not-an-address"]> sampleEnv)))
    as [r|code err] eqn:E; [|discriminate].
  destruct (@loadEnv_flags_verbatim sampleRuntime _ r E) as (Hagg & Husdc & _).
  exists r. split; [reflexivity|]. split.
  - destruct (aggregationEnabled r); [|reflexivity].
    apply proj1 in Hagg. specialize (Hagg eq_refl). vm_compute in Hagg. discriminate.
  - apply Husdc; [vm_compute; reflexivity|discriminate].
Defined.

(** * Further properties of createPolymarketClient *)

Module ClobClientFactoryMore.
Import ClobClientFactory.

Section Stages.
Context `{Libraries}.

(** X18: when [createPolymarketClient] returns, it connected to the RPC
    endpoint, created the wallet and constructed the client, once each and in
    that order; the wallet was created from the normalised private key, its
    address has the address format, and the client was constructed for
    Polygon on the CLOB host with that wallet. *)
Theorem createPolymarketClient_success (input : CreateClientInput) t client wallet :
  createPolymarketClient input = (t, inr (client, wallet)) ->
  t = [RpcConnect (rpcUrl input); WalletCreate; ClobClientCreate]
  /\ exists k provider creds,
       normalizePrivateKey (privateKey input) = Ok k
       /\ connect (rpcUrl input) = inr provider
       /\ newWallet k provider = inr wallet
       /\ re_address_i (address wallet) = true
       /\ newClobClient "https://clob.polymarket.com" POLYGON wallet creds = inr client.
Proof.
  unfold createPolymarketClient.
  destruct (normalizePrivateKey (privateKey input)) as [k|e] eqn:Ek; [|discriminate].
  cbn [mbind mret Eff_bind Eff_ret].
  destruct (connect (rpcUrl input)) as [m1|provider] eqn:Ec; simpl; [discriminate|].
  destruct (newWallet k provider) as [m2|w] eqn:Ew; simpl; [discriminate|].
  destruct (String.eqb (address w) "") eqn:Ea; simpl; [discriminate|].
  destruct (re_address_i (address w)) eqn:Er; simpl; [|discriminate].
  destruct (newClobClient _ _ _ _) as [m3|c] eqn:En; simpl; [discriminate|].
  intros [= <- <- <-]. split; [reflexivity|]. eauto 10.
Qed.

(** X19: the factory stops at the first stage that fails.  With an accepted
    key, a failed RPC connection is the only external call made and is
    reported with the endpoint and the cause; a failed wallet creation comes
    after the connection only; in neither case is a client constructed. *)
Theorem createPolymarketClient_stops_at_failure (input : CreateClientInput) (k : string) :
  normalizePrivateKey (privateKey input) = Ok k ->
  (forall cause, connect (rpcUrl input) = inl cause ->
     createPolymarketClient input =
       ([RpcConnect (rpcUrl input)],
        inl (PlainError
          ("Failed to create Polymarket client: " +:+
           ("Failed to connect to RPC endpoint: " +:+ rpcUrl input +:+ nl +:+
            "Error: " +:+ cause +:+ nl +:+
            "Please verify your RPC_URL is correct and accessible.")))))
  /\ (forall provider cause,
        connect (rpcUrl input) = inr provider -> newWallet k provider = inl cause ->
        exists msg,
          createPolymarketClient input =
            ([RpcConnect (rpcUrl input); WalletCreate], inl (PlainError msg)))
  /\ (forall t r, createPolymarketClient input = (t, r) ->
        ClobClientCreate ∈ t ->
        exists provider wallet,
          connect (rpcUrl input) = inr provider /\ newWallet k provider = inr wallet
          /\ re_address_i (address wallet) = true).
Proof.
  intros Ek. unfold createPolymarketClient. rewrite Ek.
  cbn [mbind mret Eff_bind Eff_ret]. split; [|split].
  - intros cause ->. reflexivity.
  - intros provider cause -> Hw. simpl. rewrite Hw. simpl. eauto.
  - intros t r.
    destruct (connect (rpcUrl input)) as [m1|provider] eqn:Ec; simpl.
    { intros [= <- _] Hin. apply list_elem_of_In in Hin. simpl in Hin. intuition discriminate. }
    destruct (newWallet k provider) as [m2|w] eqn:Ew; simpl.
    { intros [= <- _] Hin. apply list_elem_of_In in Hin. simpl in Hin. intuition discriminate. }
    destruct (String.eqb (address w) "") eqn:Ea; simpl.
    { intros [= <- _] Hin. apply list_elem_of_In in Hin. simpl in Hin. intuition discriminate. }
    destruct (re_address_i (address w)) eqn:Er; simpl.
    2:{ intros [= <- _] Hin. apply list_elem_of_In in Hin. simpl in Hin. intuition discriminate. }
    intros _ _. eauto.
Qed.

(** X20: API credentials are all or nothing: the client is constructed with
    credentials only when the key, the secret and the passphrase are all
    present and non-empty; if any is missing or empty, it is constructed
    without credentials and no error is raised for it. *)
Theorem createPolymarketClient_credentials (input : CreateClientInput) t client wallet :
  createPolymarketClient input = (t, inr (client, wallet)) ->
  (truthy (apiKey input) && truthy (apiSecret input) && truthy (apiPassphrase input) = false ->
   newClobClient "https://clob.polymarket.com" POLYGON wallet None = inr client)
  /\ (forall ak sec pass,
        apiKey input = Some ak -> apiSecret input = Some sec ->
        apiPassphrase input = Some pass -> ak <> "" -> sec <> "" -> pass <> "" ->
        newClobClient "https://clob.polymarket.com" POLYGON wallet
          (Some {| key := ak; secret := sec; passphrase := pass |}) = inr client).
Proof.
  unfold createPolymarketClient.
  destruct (normalizePrivateKey (privateKey input)) as [k|e] eqn:Ek; [|discriminate].
  cbn [mbind mret Eff_bind Eff_ret].
  destruct (connect (rpcUrl input)) as [m1|provider] eqn:Ec; simpl; [discriminate|].
  destruct (newWallet k provider) as [m2|w] eqn:Ew; simpl; [discriminate|].
  destruct (String.eqb (address w) "") eqn:Ea; simpl; [discriminate|].
  destruct (re_address_i (address w)) eqn:Er; simpl; [|discriminate].
  destruct (newClobClient _ _ _ _) as [m3|c] eqn:En; simpl; [discriminate|].
  intros [= _ <- <-]. split.
  - intros Hnone. rewrite Hnone in En. exact En.
  - intros ak sec pass Hk Hs Hp Nk Ns Np.
    rewrite Hk, Hs, Hp in En. unfold truthy in En.
    destruct (String.eqb_spec ak ""); [contradiction|].
    destruct (String.eqb_spec sec ""); [contradiction|].
    destruct (String.eqb_spec pass ""); [contradiction|].
    exact En.
Qed.

End Stages.

End ClobClientFactoryMore.

Module ClobClientFactoryWitnesses.
Import ClobClientFactory ClobClientFactoryMore.

Lemma createPolymarketClient_success_witness :
  exists t client wallet,
    @createPolymarketClient onlineLibraries sampleInput = (t, inr (client, wallet))
    /\ t = [RpcConnect "https://polygon-rpc.com"; WalletCreate; ClobClientCreate].
Proof.
  destruct (@createPolymarketClient onlineLibraries sampleInput)
    as [t [thrown|[client wallet]]] eqn:E; [discriminate|].
  exists t, client, wallet. split; [reflexivity|].
  exact (proj1 (@createPolymarketClient_success onlineLibraries sampleInput t client wallet E)).
Defined.

Lemma createPolymarketClient_stops_at_failure_witness :
  exists msg,
    @createPolymarketClient offlineLibraries sampleInput
    = ([RpcConnect "https://polygon-rpc.com"], inl (PlainError msg)).
Proof.
  eexists.
  apply (proj1 (@createPolymarketClient_stops_at_failure offlineLibraries sampleInput
                  _ eq_refl) "could not detect network").
  reflexivity.
Defined.

Lemma createPolymarketClient_credentials_witness :
  exists t client wallet,
    @createPolymarketClient onlineLibraries sampleInput = (t, inr (client, wallet))
    /\ creds client = None.
Proof.
  destruct (@createPolymarketClient onlineLibraries sampleInput)
    as [t [thrown|[client wallet]]] eqn:E; [discriminate|].
  exists t, client, wallet. split; [reflexivity|].
  pose proof (proj1 (@createPolymarketClient_credentials onlineLibraries sampleInput
                       t client wallet E) eq_refl) as Hnone.
  simpl in Hnone. injection Hnone as <-. reflexivity.
Defined.

End ClobClientFactoryWitnesses.

(** * The two spellings of a private key *)

Section PrivateKeyPrefix.

Lemma isHexDigit_not_x (c : ascii) : isHexDigit c = true -> Ascii.eqb "x" c = false.
Proof. destruct c as [[] [] [] [] [] [] [] []]; vm_compute; congruence. Qed.

Lemma isHexDigit_not_s (c : ascii) : isHexDigit c = true -> Ascii.eqb "s" c = false.
Proof. destruct c as [[] [] [] [] [] [] [] []]; vm_compute; congruence. Qed.

Lemma allHex_no_prefix (h : string) :
  allHex h = true -> startsWith "0x" h = false /\ startsWith "suiprivkey" h = false.
Proof.
  destruct h as [|c1 h]; [split; reflexivity|]. simpl allHex.
  intros [H1 Hh]%andb_prop. split.
  - destruct h as [|c2 h]; cbn [startsWith]; [apply andb_false_r|].
    simpl in Hh. apply andb_prop in Hh as [H2 _].
    rewrite (isHexDigit_not_x c2 H2). apply andb_false_r.
  - cbn [startsWith]. now rewrite (isHexDigit_not_s c1 H1).
Qed.

(** X21: the ["0x"] prefix of a private key is optional: 64 hexadecimal
    characters, with or without the prefix, normalise to the same prefixed
    key, and the case of the digits is kept. *)
Theorem normalizePrivateKey_prefix_optional (h : string) :
  String.length h = 64%nat -> allHex h = true ->
  normalizePrivateKey h = Ok ("0x" +:+ h)
  /\ normalizePrivateKey ("0x" +:+ h) = Ok ("0x" +:+ h).
Proof.
  intros Hl Hh. split; [|now apply normalizePrivateKey_normal_form].
  pose proof (trim_noWhiteSpace h (allHex_noWhiteSpace h Hh)) as Ht.
  destruct (allHex_no_prefix h Hh) as [H0x Hsui].
  assert (Hne : String.eqb h "" = false) by (destruct h; [discriminate|reflexivity]).
  assert (Hv : isValidPrivateKey h = true).
  { unfold isValidPrivateKey. rewrite Hne, Ht, H0x.
    apply re_hex_exactly_spec. now split. }
  unfold normalizePrivateKey. rewrite Hne, Ht, Hsui, Hl, Hv, H0x. reflexivity.
Qed.

Lemma normalizePrivateKey_prefix_optional_witness :
  let h := "ABCDEF0123456789abcdef0123456789abcdef0123456789abcdef0123456789" in
  normalizePrivateKey h = Ok ("0x" +:+ h)
  /\ normalizePrivateKey ("0x" +:+ h) = Ok ("0x" +:+ h).
Proof.
  exact (normalizePrivateKey_prefix_optional
           "ABCDEF0123456789abcdef0123456789abcdef0123456789abcdef0123456789"
           eq_refl eq_refl).
Defined.

End PrivateKeyPrefix.
